(** * The HSC catalog query helpers of the STScI notebooks

    A shallow embedding of the helper functions defined in the Hubble Source
    Catalog notebooks ([hsccone], [hscsearch], [hscmetadata], [hcvcone],
    [hcvsearch], [hcvmetadata], [cat2url], [checklegal]) and the properties
    of the catalog query helper proved about them.

    Python strings are modelled by [string] (ASCII text), the keyword
    dictionaries by insertion-ordered association lists living in a heap of
    dictionary objects, exceptions by the left summand of a sum, and the
    network by a log of the requests issued together with a server that
    answers each request.  Two cells of the notebooks are embedded beside
    the helpers: the one that cleans a comma-separated list of columns and
    the one that asks for the CasJobs credentials. *)

From Stdlib Require Import String Ascii List ZArith QArith Bool Lia.
From stdpp Require Import base list.
Import ListNotations.

Local Open Scope list_scope.
Local Open Scope string_scope.

(** ** Python strings *)

(** [str.lower()] on ASCII text, see [is_ascii]. *)
Definition lower_ascii (c : ascii) : ascii :=
  let n := nat_of_ascii c in
  if (Nat.leb 65 n && Nat.leb n 90)%bool then ascii_of_nat (n + 32) else c.

Fixpoint lower (s : string) : string :=
  match s with
  | EmptyString => EmptyString
  | String c s' => String (lower_ascii c) (lower s')
  end.

(** The characters [str.strip()] removes from ASCII text: tab, line feed,
    vertical tab, form feed, carriage return, the four separators 28..31
    and the space. *)
Definition isspace (c : ascii) : bool :=
  let n := nat_of_ascii c in
  ((Nat.leb 9 n && Nat.leb n 13) || (Nat.leb 28 n && Nat.leb n 32))%bool.

Fixpoint lstrip_chars (l : list ascii) : list ascii :=
  match l with
  | [] => []
  | c :: l' => if isspace c then lstrip_chars l' else l
  end.

Definition lstrip (s : string) : string :=
  string_of_list_ascii (lstrip_chars (list_ascii_of_string s)).

Definition rstrip (s : string) : string :=
  string_of_list_ascii (rev (lstrip_chars (rev (list_ascii_of_string s)))).

Definition strip (s : string) : string := rstrip (lstrip s).

(** [sep.join(l)] *)
Fixpoint join (sep : string) (l : list string) : string :=
  match l with
  | [] => ""
  | [x] => x
  | x :: xs => x ++ sep ++ join sep xs
  end.

(** [s in (a, b, ...)] for a tuple of strings. *)
Definition str_in (s : string) (l : list string) : bool :=
  existsb (String.eqb s) l.

(** ** Exceptions *)

Inductive exn : Type :=
| ValueError (msg : string)
| HTTPError (status : Z)
| JSONDecodeError
| KeyError (key : string)
| TypeError
| AttributeError
| ParserError
| SystemError.

(** The results of a computation that may raise. *)
Definition raises (A : Type) : Type := (exn + A)%type.

(** ** Legal combinations and the base URL *)

Definition hscapiurl : string := "https://catalogs.mast.stsci.edu/api/v0.1/hsc".

Definition releaselist : list string := ["v2"; "v3"].

Definition tablelist (release : string) : list string :=
  if String.eqb release "v2" then ["summary"; "detailed"]
  else ["summary"; "detailed"; "propermotions"; "sourcepositions";
        "hcvsummary"; "hcv"].

Definition magtypelist : list string := ["magaper2"; "magauto"].

Definition bad_release : exn :=
  ValueError ("Bad value for release (must be one of "
              ++ join ", " releaselist ++ ")").

Definition bad_table (release : string) : exn :=
  ValueError ("Bad value for table (for " ++ release ++ " must be one of "
              ++ join ", " (tablelist release) ++ ")").

Definition bad_magtype : exn :=
  ValueError ("Bad value for magtype (must be one of "
              ++ join ", " magtypelist ++ ")").

Definition checklegal (table release magtype : string) : raises unit :=
  if negb (str_in release releaselist) then inl bad_release
  else if negb (str_in table (tablelist release)) then inl (bad_table release)
  else if String.eqb table "summary" then
    if negb (str_in magtype magtypelist) then inl bad_magtype else inr tt
  else inr tt.

Definition cat2url (table release magtype baseurl : string) : raises string :=
  match checklegal table release magtype with
  | inl e => inl e
  | inr _ =>
      if String.eqb table "summary"
      then inr (baseurl ++ "/" ++ release ++ "/" ++ table ++ "/" ++ magtype)
      else inr (baseurl ++ "/" ++ release ++ "/" ++ table)
  end.

(** The error kinds of the specification.  The code raises [ValueError] for
    all four; they are told apart by the statement that raises them. *)
Definition MissingParameters : exn :=
  ValueError "You must specify some parameters for search".

Definition UnsupportedFormat : exn := ValueError "Bad value for format".

Definition InvalidCombination (e : exn) : Prop :=
  e = bad_release \/ (exists release, e = bad_table release) \/ e = bad_magtype.

Definition UnknownColumn (badcols : list string) : exn :=
  ValueError ("Some columns not found in table: " ++ join ", " badcols).

(** The legal set, as the specification words it: release v2 with the tables
    summary and detailed, release v3 with six tables, and the magnitude type
    constrained only for the summary table. *)
Definition legal_tables (release : string) (table : string) : Prop :=
  (release = "v2" /\ (table = "summary" \/ table = "detailed"))
  \/ (release = "v3"
      /\ (table = "summary" \/ table = "detailed" \/ table = "propermotions"
          \/ table = "sourcepositions" \/ table = "hcvsummary"
          \/ table = "hcv")).

Definition legal (release table magtype : string) : Prop :=
  legal_tables release table
  /\ (table = "summary" -> magtype = "magaper2" \/ magtype = "magauto").

Definition base_path (baseurl release table magtype : string) : string :=
  if String.eqb table "summary"
  then baseurl ++ "/" ++ release ++ "/" ++ table ++ "/" ++ magtype
  else baseurl ++ "/" ++ release ++ "/" ++ table.

(** Default values of the keyword parameters, as the signatures give them.
    All search functions share them, except for [table]. *)
Module Defaults.
Definition hsc_table : string := "summary".
Definition hcv_table : string := "hcvsummary".
Definition release : string := "v3".
Definition magtype : string := "magaper2".
Definition format : string := "csv".
Definition columns : option (list string) := None.
Definition baseurl : string := hscapiurl.
Definition verbose : bool := false.
End Defaults.

(** ** Values, dictionaries and JSON *)

(** The scalars a caller passes as filter values.  A float is represented by
    the rational it stands for; the code only passes filter values on. *)
Inductive pyval : Type :=
| PyInt (z : Z)
| PyFloat (q : Q)
| PyStr (s : string).

Arguments PyFloat q%_Q.

(** A Python [dict] with string keys: an association list in insertion
    order, without duplicate keys. *)
Definition dict : Type := list (string * pyval).

Fixpoint dict_get (k : string) (d : dict) : option pyval :=
  match d with
  | [] => None
  | (k', v) :: d' => if String.eqb k' k then Some v else dict_get k d'
  end.

(** [d[k] = v]: an existing key keeps its position, a new one goes last. *)
Fixpoint dict_set (k : string) (v : pyval) (d : dict) : dict :=
  match d with
  | [] => [(k, v)]
  | (k', v') :: d' =>
      if String.eqb k' k then (k', v) :: d' else (k', v') :: dict_set k v d'
  end.

(** Truth value of a container: [not data], [if columns:], [if badcols:]. *)
Definition truthy {A : Type} (l : list A) : bool :=
  match l with [] => false | _ :: _ => true end.

#[warnings="-register-all"]
Inductive json : Type :=
| JNull
| JBool (b : bool)
| JNum (q : Q)
| JStr (s : string)
| JArr (items : list json)
| JObj (members : list (string * json)).

(** [for x in v] on a decoded JSON value. *)
Definition py_iter (v : json) : raises (list json) :=
  match v with
  | JArr items => inr items
  | JObj members => inr (map (fun kv => JStr (fst kv)) members)
  | JStr s => inr (map (fun c => JStr (String c EmptyString))
                       (list_ascii_of_string s))
  | _ => inl TypeError
  end.

Fixpoint members_get (k : string) (ms : list (string * json)) : option json :=
  match ms with
  | [] => None
  | (k', v) :: ms' => if String.eqb k' k then Some v else members_get k ms'
  end.

(** [x[key]] with a string key. *)
Definition getitem (x : json) (key : string) : raises json :=
  match x with
  | JObj members =>
      match members_get key members with
      | Some v => inr v
      | None => inl (KeyError key)
      end
  | _ => inl TypeError
  end.

(** [col.lower()] on an element of a table column. *)
Definition py_lower (col : json) : raises string :=
  match col with
  | JStr s => inr (lower s)
  | _ => inl AttributeError
  end.

(** Left-to-right evaluation of a comprehension or loop whose body may
    raise: the first exception ends it. *)
Fixpoint map_raises {A B : Type} (f : A -> raises B) (l : list A)
  : raises (list B) :=
  match l with
  | [] => inr []
  | x :: xs =>
      match f x with
      | inl e => inl e
      | inr y =>
          match map_raises f xs with
          | inl e => inl e
          | inr ys => inr (y :: ys)
          end
      end
  end.

(** A row of the metadata table: name, type, description. *)
Record meta_row : Type := MetaRow {
  meta_name : json;
  meta_type : json;
  meta_description : json
}.

Definition row_of (x : json) : raises meta_row :=
  match getitem x "name" with
  | inl e => inl e
  | inr n =>
      match getitem x "type" with
      | inl e => inl e
      | inr t =>
          match getitem x "description" with
          | inl e => inl e
          | inr d => inr (MetaRow n t d)
          end
      end
  end.

(** ** The network and the store *)

Record Request : Type := GET {
  req_url : string;
  req_params : option dict
}.

Record Response : Type := mkResponse {
  status_code : Z;
  text : string
}.

(** What lies outside the notebooks: the server, which answers a request
    knowing the requests made before it, the JSON decoder behind
    [Response.json()], and the CSV reader
    [Table.from_pandas(pd.read_csv(StringIO(text)))] with the row count of
    the table it builds.  Both decoders answer [None] on a text they
    reject. *)
Record World : Type := mkWorld {
  DataTable : Type;
  table_len : DataTable -> nat;
  read_csv : string -> option DataTable;
  json_loads : string -> option json;
  server : list Request -> Request -> Response
}.

(** The store: the dictionary objects allocated so far, addressed by their
    index, and the requests sent so far, oldest first. *)
Record State : Type := mkState {
  heap : list dict;
  log : list Request
}.

Definition loc : Type := nat.

(** Computations with a store that may raise. *)
Definition M (A : Type) : Type := State -> raises A * State.

#[global] Instance M_ret : MRet M := fun A (x : A) s => (inr x, s).

#[global] Instance M_bind : MBind M := fun A B (f : A -> M B) (m : M A) s =>
  match m s with
  | (inl e, s') => (inl e, s')
  | (inr x, s') => f x s'
  end.

Definition raise {A : Type} (e : exn) : M A := fun s => (inl e, s).

Definition lift {A : Type} (r : raises A) : M A := fun s => (r, s).

(** A new dictionary object holding [d]. *)
Definition alloc (d : dict) : M loc := fun s =>
  (inr (length (heap s)), mkState (heap s ++ [d]) (log s)).

(** The contents of an object.  The functions below only dereference
    objects they allocated themselves, so they never raise [SystemError]. *)
Definition deref (l : loc) : M dict := fun s =>
  match heap s !! l with
  | Some d => (inr d, s)
  | None => (inl SystemError, s)
  end.

(** [kw.copy()] *)
Definition dict_copy (l : loc) : M loc :=
  d ← deref l; alloc d.

(** [data[k] = v], in place. *)
Definition dict_setitem (l : loc) (k : string) (v : pyval) : M unit := fun s =>
  match heap s !! l with
  | Some d => (inr tt, mkState (<[l := dict_set k v d]> (heap s)) (log s))
  | None => (inl SystemError, s)
  end.

(** A function with a [**kw] parameter receives the keywords of the call in
    a fresh dictionary object: those that name none of its parameters, see
    [bind_extra]. *)
Definition bind_kw (kw : dict) : M loc := alloc kw.

(** ** The search functions *)

Section Helpers.

Context (W : World).

(** What a search returns: decoded JSON, the raw text, or a table. *)
Inductive result : Type :=
| ResJson (j : json)
| ResText (s : string)
| ResTable (t : DataTable W).

(** [requests.get(url, params=...)]: the request is logged and the server
    answers it. *)
Definition requests_get (u : string) (p : option dict) : M Response :=
  fun s =>
    let rq := GET u p in
    (inr (server W (log s) rq), mkState (heap s) (log s ++ [rq])).

(** [r.json()] *)
Definition response_json (r : Response) : M json :=
  match json_loads W (text r) with
  | Some j => mret j
  | None => raise JSONDecodeError
  end.

(** [Table.from_pandas(pd.read_csv(StringIO(r.text)))] *)
Definition response_table (r : Response) : M (DataTable W) :=
  match read_csv W (text r) with
  | Some t => mret t
  | None => raise ParserError
  end.

(** [r.raise_for_status()]: client and server errors raise. *)
Definition raise_for_status (r : Response) : M unit :=
  if ((400 <=? status_code r) && (status_code r <? 600))%Z
  then raise (HTTPError (status_code r))
  else mret tt.

(** The body of both metadata functions.  The rows returned stand for
    the astropy table, which they match when they hold plain strings, see
    [text_table]. *)
Definition metadata (table release magtype baseurl : string)
  : M (list meta_row) :=
  base ← lift (cat2url table release magtype baseurl);
  let url := base ++ "/metadata" in
  r ← requests_get url None;
  _ ← raise_for_status r;
  v ← response_json r;
  xs ← lift (py_iter v);
  lift (map_raises row_of xs).

Definition hscmetadata (table release magtype baseurl : string)
  : M (list meta_row) :=
  metadata table release magtype baseurl.

Definition hcvmetadata (table release magtype baseurl : string)
  : M (list meta_row) :=
  metadata table release magtype baseurl.

(** The [if columns:] block shared by both searches: the lower-cased
    metadata names go into [dcols], the requested columns that are not
    found are collected, and the [columns] entry is stored in [data]. *)
Definition check_columns (tab : list meta_row) (columns : list string)
    (data : loc) : M unit :=
  dcols ← lift (map_raises (fun row => py_lower (meta_name row)) tab);
  let badcols :=
    List.filter (fun col => negb (str_in (strip (lower col)) dcols))
                columns in
  if truthy badcols then raise (UnknownColumn badcols)
  else dict_setitem data "columns" (PyStr ("[" ++ join "," columns ++ "]")).

Definition columns_given (columns : option (list string)) : list string :=
  match columns with
  | Some cols => cols
  | None => []
  end.

(** [verbose] only prints the URL of the response and is carried along
    without effect. *)
Definition hscsearch (table release magtype format : string)
    (columns : option (list string)) (baseurl : string) (verbose : bool)
    (kw : dict) : M result :=
  kwl ← bind_kw kw;
  data ← dict_copy kwl;
  d ← deref data;
  if negb (truthy d) then raise MissingParameters
  else if negb (str_in format ["csv"; "votable"; "json"; "table"])
  then raise UnsupportedFormat
  else
    let rformat := if String.eqb format "table" then "csv" else format in
    base ← lift (cat2url table release magtype baseurl);
    let url := base ++ "." ++ rformat in
    _ ← (if truthy (columns_given columns) then
           tab ← hscmetadata table release magtype Defaults.baseurl;
           check_columns tab (columns_given columns) data
         else mret tt);
    params ← deref data;
    r ← requests_get url (Some params);
    _ ← raise_for_status r;
    if String.eqb format "json" then
      j ← response_json r; mret (ResJson j)
    else if String.eqb format "table" then
      t ← response_table r; mret (ResTable t)
    else mret (ResText (text r)).

Definition hsccone (ra dec radius : pyval) (table release format magtype : string)
    (columns : option (list string)) (baseurl : string) (verbose : bool)
    (kw : dict) : M result :=
  kwl ← bind_kw kw;
  data ← dict_copy kwl;
  _ ← dict_setitem data "ra" ra;
  _ ← dict_setitem data "dec" dec;
  _ ← dict_setitem data "radius" radius;
  d ← deref data;
  hscsearch table release magtype format columns baseurl verbose d.

Definition hcvsearch (table release magtype format : string)
    (columns : option (list string)) (baseurl : string) (verbose : bool)
    (kw : dict) : M result :=
  kwl ← bind_kw kw;
  data ← dict_copy kwl;
  d ← deref data;
  if negb (truthy d) then raise MissingParameters
  else if negb (str_in format ["csv"; "votable"; "json"])
  then raise UnsupportedFormat
  else
    base ← lift (cat2url table release magtype baseurl);
    let url := base ++ "." ++ format in
    _ ← (if truthy (columns_given columns) then
           tab ← hcvmetadata table release magtype Defaults.baseurl;
           check_columns tab (columns_given columns) data
         else mret tt);
    params ← deref data;
    r ← requests_get url (Some params);
    _ ← raise_for_status r;
    if String.eqb format "json" then
      j ← response_json r; mret (ResJson j)
    else mret (ResText (text r)).

Definition hcvcone (ra dec radius : pyval) (table release format magtype : string)
    (columns : option (list string)) (baseurl : string) (verbose : bool)
    (kw : dict) : M result :=
  kwl ← bind_kw kw;
  data ← dict_copy kwl;
  _ ← dict_setitem data "ra" ra;
  _ ← dict_setitem data "dec" dec;
  _ ← dict_setitem data "radius" radius;
  d ← deref data;
  hcvsearch table release magtype format columns baseurl verbose d.

End Helpers.

(** ** Outcomes as functions of the responses

    The value each function computes from the response it receives, used to
    state how a call runs. *)

Section Outcomes.

Context (W : World).

Definition http_failed (r : Response) : bool :=
  ((400 <=? status_code r) && (status_code r <? 600))%Z.

(** What the metadata functions make of the response. *)
Definition read_metadata (r : Response) : raises (list meta_row) :=
  if http_failed r then inl (HTTPError (status_code r))
  else match json_loads W (text r) with
       | None => inl JSONDecodeError
       | Some v =>
           match py_iter v with
           | inl e => inl e
           | inr xs => map_raises row_of xs
           end
       end.

(** What [hscsearch] makes of the response to the search request. *)
Definition hsc_decode (format : string) (r : Response) : raises (result W) :=
  if http_failed r then inl (HTTPError (status_code r))
  else if String.eqb format "json" then
    match json_loads W (text r) with
    | Some j => inr (ResJson W j)
    | None => inl JSONDecodeError
    end
  else if String.eqb format "table" then
    match read_csv W (text r) with
    | Some t => inr (ResTable W t)
    | None => inl ParserError
    end
  else inr (ResText W (text r)).

(** What [hcvsearch] makes of it. *)
Definition hcv_decode (format : string) (r : Response) : raises (result W) :=
  if http_failed r then inl (HTTPError (status_code r))
  else if String.eqb format "json" then
    match json_loads W (text r) with
    | Some j => inr (ResJson W j)
    | None => inl JSONDecodeError
    end
  else inr (ResText W (text r)).

End Outcomes.

(** The store once a search function has bound its keywords and copied
    them: two new objects, the requests as before. *)
Definition entered (kw : dict) (s : State) : State :=
  mkState (heap s ++ [kw; kw])%list (log s).

(** The same store with one more request sent. *)
Definition sent (rq : Request) (s : State) : State :=
  mkState (heap s) (log s ++ [rq])%list.

(** The filters a cone search hands on: the keywords with the position
    written over them. *)
Definition cone_filters (ra dec radius : pyval) (kw : dict) : dict :=
  dict_set "radius" radius (dict_set "dec" dec (dict_set "ra" ra kw)).

(** An error that is not a [ValueError]. *)
Definition other_error (e : exn) : Prop := forall msg, e <> ValueError msg.

(** The request for the metadata of a table. *)
Definition metadata_request (table release magtype : string) : Request :=
  GET (base_path Defaults.baseurl release table magtype ++ "/metadata") None.

(** The errors raised before any request: MissingParameters,
    UnsupportedFormat and InvalidCombination. *)
Definition early_error (e : exn) : Prop :=
  e = MissingParameters \/ e = UnsupportedFormat \/ InvalidCombination e.

(** The [columns] entry written for a list of requested columns. *)
Definition columns_param (columns : list string) : pyval :=
  PyStr ("[" ++ join "," columns ++ "]").


(** ** The run of a search, stage by stage

    Both searches run through the same stages; they differ in the formats
    they accept, in the format they request and in how they decode the
    answer.  [search_run] spells out the result and the final store of a
    search called with the keywords [kw] in the store [s]; the lemmas
    [hscsearch_run] and [hcvsearch_run] show that the functions compute
    exactly this. *)

Section SearchRun.

Context (W : World).
Context (formats : list string) (rformat : string -> string)
        (decode : string -> Response -> raises (result W)).

(** The metadata names, lower-cased, as [dcols] holds them. *)
Definition lowered_names (tab : list meta_row) : raises (list string) :=
  map_raises (fun row => py_lower (meta_name row)) tab.

(** The requested columns that are not found in [dcols]. *)
Definition not_found (dcols cols : list string) : list string :=
  List.filter (fun col => negb (str_in (strip (lower col)) dcols)) cols.

(** The last stage: the search request goes out with [params], taken from
    the object [data] that holds them. *)
Definition fetch_run (url format : string) (kw params : dict) (s : State)
    (sent_before : list Request) : raises (result W) * State :=
  let rq := GET url (Some params) in
  (decode format (server W (log s ++ sent_before) rq),
   mkState (heap s ++ [kw; params]) (log s ++ sent_before ++ [rq]))%list.

(** The [if columns:] stage and what follows it. *)
Definition columns_run (table release magtype format url : string)
    (cols : list string) (kw : dict) (s : State)
  : raises (result W) * State :=
  match cat2url table release magtype Defaults.baseurl with
  | inl e => (inl e, entered kw s)
  | inr mbase =>
      let mrq := GET (mbase ++ "/metadata") None in
      match read_metadata W (server W (log s) mrq) with
      | inl e => (inl e, sent mrq (entered kw s))
      | inr tab =>
          match lowered_names tab with
          | inl e => (inl e, sent mrq (entered kw s))
          | inr dcols =>
              if truthy (not_found dcols cols)
              then (inl (UnknownColumn (not_found dcols cols)),
                    sent mrq (entered kw s))
              else fetch_run url format kw
                     (dict_set "columns" (columns_param cols) kw) s [mrq]
          end
      end
  end.

Definition search_run (table release magtype format : string)
    (columns : option (list string)) (baseurl : string) (kw : dict)
    (s : State) : raises (result W) * State :=
  if negb (truthy kw) then (inl MissingParameters, entered kw s)
  else if negb (str_in format formats)
  then (inl UnsupportedFormat, entered kw s)
  else
    match cat2url table release magtype baseurl with
    | inl e => (inl e, entered kw s)
    | inr base =>
        let url := base ++ "." ++ rformat format in
        if truthy (columns_given columns)
        then columns_run table release magtype format url
               (columns_given columns) kw s
        else fetch_run url format kw kw s []
    end.

End SearchRun.

(** The format [hscsearch] requests: csv stands in for table. *)
Definition hsc_rformat (format : string) : string :=
  if String.eqb format "table" then "csv" else format.

(** [hcvsearch] requests the format it is given. *)
Definition hcv_rformat (format : string) : string := format.

(** The result of the table format, read from the result of the csv
    format: the same error, or the table the reader makes of the text. *)
Definition read_from (W : World) (rt rc : raises (result W)) : Prop :=
  match rc with
  | inl e => rt = inl e
  | inr (ResText _ body) =>
      rt = match read_csv W body with
           | Some t => inr (ResTable W t)
           | None => inl ParserError
           end
  | inr _ => False
  end.

(** A requested column is known when, trimmed and compared without regard
    to case, it is one of the metadata names. *)
Definition column_known (names : list string) (col : string) : Prop :=
  exists n, In n names /\ lower n = lower (strip col).

(** The names of a metadata table whose name column holds strings. *)
Definition has_names (tab : list meta_row) (names : list string) : Prop :=
  map meta_name tab = map JStr names.

Definition hsc_formats : list string := ["csv"; "votable"; "json"; "table"].
Definition hcv_formats : list string := ["csv"; "votable"; "json"].

(** ** A small world to run the functions in *)

Module Demo.

Definition nl : string := String (ascii_of_nat 10) EmptyString.

Definition metadata_text : string := "METADATA".

Definition csv_text : string :=
  "MatchID,MatchRA,MatchDec" ++ nl ++ "1,187.7,12.3" ++ nl
  ++ "2,187.8,12.4" ++ nl.

Definition column (name type description : string) : json :=
  JObj [("name", JStr name); ("type", JStr type);
        ("description", JStr description)].

Definition decode (s : string) : option json :=
  if String.eqb s metadata_text then
    Some (JArr [column "MatchID" "long" "identifier for the match";
                column "MatchRA" "float" "right ascension";
                column "MatchDec" "float" "declination"])
  else None.

(** Lines of a text, the last one without its terminator dropped when
    empty. *)
Fixpoint lines_from (cur : string) (l : list ascii) : list string :=
  match l with
  | [] => if String.eqb cur "" then [] else [cur]
  | c :: l' =>
      if Ascii.eqb c (ascii_of_nat 10) then cur :: lines_from "" l'
      else lines_from (cur ++ String c EmptyString) l'
  end.

Definition read (s : string) : option (list string) :=
  match lines_from "" (list_ascii_of_string s) with
  | [] => None
  | _header :: rows => Some rows
  end.

Fixpoint ends_with_metadata (u : string) : bool :=
  match u with
  | EmptyString => false
  | String _ u' => String.eqb u "/metadata" || ends_with_metadata u'
  end.

Definition serve (_ : list Request) (rq : Request) : Response :=
  if ends_with_metadata (req_url rq) then mkResponse 200 metadata_text
  else mkResponse 200 csv_text.

Definition world : World := mkWorld (list string) (@length string) read decode serve.

Definition empty : State := mkState [] [].

(** One filter: at least two images. *)
Definition filters : dict := [("numimages.gte", PyInt 2)].

(** A store in which the caller already holds a dictionary. *)
Definition busy : State := mkState [filters] [].

Definition names : list string := ["MatchID"; "MatchRA"; "MatchDec"].

Definition rows : list meta_row :=
  [MetaRow (JStr "MatchID") (JStr "long") (JStr "identifier for the match");
   MetaRow (JStr "MatchRA") (JStr "float") (JStr "right ascension");
   MetaRow (JStr "MatchDec") (JStr "float") (JStr "declination")].

End Demo.

(** ** Column descriptors *)

(** A JSON value describes the metadata row [r] when it is an object whose
    members name, type and description are those of [r]. *)
Definition descriptor (x : json) (r : meta_row) : Prop :=
  exists members,
    x = JObj members
    /\ members_get "name" members = Some (meta_name r)
    /\ members_get "type" members = Some (meta_type r)
    /\ members_get "description" members = Some (meta_description r).


(** ** The strings the model is faithful on

    [lower] and [strip] are [str.lower()] and [str.strip()] on ASCII text
    only: Python also folds the case of other letters and trims other
    white space.  The rows of the metadata stand for a table built by
    astropy, which holds the values it is given as they are when they are
    all plain strings, but converts a column of mixed values.  The
    properties that rest on any of this say so, through the predicates
    below. *)

Definition is_ascii (s : string) : bool :=
  forallb (fun c => Nat.ltb (nat_of_ascii c) 128) (list_ascii_of_string s).

(** Printable ASCII: the characters 32 to 126. *)
Definition is_plain (s : string) : bool :=
  forallb (fun c => Nat.leb 32 (nat_of_ascii c)
                    && Nat.ltb (nat_of_ascii c) 127)
          (list_ascii_of_string s).

(** Requested columns of ASCII text. *)
Definition ascii_columns (columns : list string) : Prop :=
  forallb is_ascii columns = true.

Definition is_text_row (r : meta_row) : bool :=
  match meta_name r, meta_type r, meta_description r with
  | JStr n, JStr t, JStr d => is_plain n && is_plain t && is_plain d
  | _, _, _ => false
  end.

(** A metadata table whose names, types and descriptions are all strings
    of printable ASCII. *)
Definition text_table (tab : list meta_row) : Prop :=
  forallb is_text_row tab = true.

(** A decoded element whose name, type and description, where it has
    them, are strings of printable ASCII. *)
Definition text_member (k : string) (x : json) : bool :=
  match x with
  | JObj members =>
      match members_get k members with
      | Some (JStr v) => is_plain v
      | Some _ => false
      | None => true
      end
  | _ => true
  end.

Definition text_descriptors (xs : list json) : Prop :=
  forallb (fun x => text_member "name" x && text_member "type" x
                    && text_member "description" x) xs = true.

(** ** Binding the keywords of a call

    The functions above start from the dictionary that [**kw] receives.
    Python builds it when it binds the arguments of the call: a keyword
    that names a parameter which the call gives already is refused with a
    [TypeError], before the function runs, and never reaches [**kw]. *)

Definition search_parameters : list string :=
  ["table"; "release"; "magtype"; "format"; "columns"; "baseurl"; "verbose"].



Section Calls.

Context (W : World).



End Calls.

(** ** The column list of the cross-matching notebook

    The notebook writes its columns as one comma-separated text, splits it,
    trims the pieces and drops the empty ones and those commented out with
    a hash sign. *)

(** [s.split(sep)] for a separator of one character. *)
Fixpoint split (sep : ascii) (s : string) : list string :=
  match s with
  | EmptyString => [EmptyString]
  | String c s' =>
      if Ascii.eqb c sep then EmptyString :: split sep s'
      else match split sep s' with
           | [] => [String c EmptyString]
           | w :: ws => String c w :: ws
           end
  end.

(** [x.startswith(p)] *)
Definition startswith (x p : string) : bool := String.prefix p x.

(** Truth value of a string. *)
Definition nonempty (x : string) : bool :=
  match x with EmptyString => false | String _ _ => true end.

Definition clean_columns (text : string) : list string :=
  let columns := split "," text in
  let columns := map strip columns in
  List.filter (fun x => nonempty x && negb (startswith x "#")) columns.

(** The text of the notebook. *)
Definition notebook_columns : string :=
  "MatchID,MatchRA,MatchDec,TargetName,NumFilters,NumVisits,NumImages,StartMJD,StopMJD".

(** ** Asking for the CasJobs credentials

    The notebooks read the user id and the password from the environment
    and ask for the ones that are missing or empty. *)

Module Credentials.

(** [os.environ]: names and values, a name at most once. *)
Definition environment : Type := list (string * string).

Fixpoint env_get (k : string) (e : environment) : option string :=
  match e with
  | [] => None
  | (k', v) :: e' => if String.eqb k' k then Some v else env_get k e'
  end.

Fixpoint env_set (k v : string) (e : environment) : environment :=
  match e with
  | [] => [(k, v)]
  | (k', v') :: e' =>
      if String.eqb k' k then (k', v) :: e' else (k', v') :: env_set k v e'
  end.

(** The process environment, the lines the user is going to type, and the
    prompts shown so far. *)
Record Console : Type := mkConsole {
  environ : environment;
  typed : list string;
  prompts : list string
}.

(** Interactions; [None] stands for the [EOFError] of a closed input. *)
Definition IO (A : Type) : Type := Console -> option A * Console.

#[global] Instance IO_ret : MRet IO := fun A (x : A) c => (Some x, c).

#[global] Instance IO_bind : MBind IO := fun A B (f : A -> IO B) (m : IO A) c =>
  match m c with
  | (None, c') => (None, c')
  | (Some x, c') => f x c'
  end.

(** [input(prompt)]: the prompt is shown and a line is read. *)
Definition input (prompt : string) : IO string := fun c =>
  let c' := mkConsole (environ c) (List.tl (typed c)) (prompts c ++ [prompt]) in
  match typed c with
  | [] => (None, c')
  | line :: _ => (Some line, c')
  end.

(** [getpass.getpass(prompt)]: as [input], without echo. *)
Definition getpass (prompt : string) : IO string := input prompt.

(** [os.environ.get(k)] *)
Definition environ_get (k : string) : IO (option string) := fun c =>
  (Some (env_get k (environ c)), c).

(** [os.environ[k] = v], for a value that can be stored, see [storable]. *)
Definition environ_setitem (k v : string) : IO unit := fun c =>
  (Some tt, mkConsole (env_set k v (environ c)) (typed c) (prompts c)).

(** Truth value of what [os.environ.get] returns. *)
Definition is_set (o : option string) : bool :=
  match o with
  | Some v => nonempty v
  | None => false
  end.

Definition ask_credentials : IO unit :=
  userid ← environ_get "CASJOBS_USERID";
  _ ← (if negb (is_set userid) then
         v ← input "Enter Casjobs UserID:";
         environ_setitem "CASJOBS_USERID" v
       else mret tt);
  pw ← environ_get "CASJOBS_PW";
  if negb (is_set pw) then
    v ← getpass "Enter Casjobs password:";
    environ_setitem "CASJOBS_PW" v
  else mret tt.

(** A line that [os.environ] can store: ASCII text without the character
    0, on which the assignment raises [ValueError]. *)
Definition storable (line : string) : bool :=
  forallb (fun c => Nat.ltb 0 (nat_of_ascii c)
                    && Nat.ltb (nat_of_ascii c) 128)
          (list_ascii_of_string line).

(** The variables the cell will ask for, in the order it asks. *)
Definition missing (c : Console) : list string :=
  ((if is_set (env_get "CASJOBS_USERID" (environ c)) then []
    else ["CASJOBS_USERID"])
   ++ (if is_set (env_get "CASJOBS_PW" (environ c)) then []
       else ["CASJOBS_PW"]))%list.

Definition prompt_for (k : string) : string :=
  if String.eqb k "CASJOBS_USERID" then "Enter Casjobs UserID:"
  else "Enter Casjobs password:".

End Credentials.

(** The release, table and magnitude type of a path, after the base. *)
Definition path_suffix (c : string * string * string) : string :=
  let '(release, table, magtype) := c in
  base_path "" release table magtype.

(** ** Worlds that answer badly *)

Module Cases.

(** A world that answers [answer] to a metadata request and decodes every
    JSON text to [decoded]; searches are answered as in [Demo], or with
    the status [status] if it is not 200. *)
Definition world_with (answer : Response) (decoded : option json)
    (status : Z) : World :=
  mkWorld (list string) (@length string) Demo.read (fun _ => decoded)
    (fun _ rq =>
       if Demo.ends_with_metadata (req_url rq) then answer
       else mkResponse status Demo.csv_text).

Definition down : World :=
  world_with (mkResponse 503 "Service Unavailable") None 503.

Definition garbled : World := world_with (mkResponse 200 "<html>") None 200.

Definition scalar : World :=
  world_with (mkResponse 200 "3") (Some (JNum 3)) 200.

Definition incomplete : World :=
  world_with (mkResponse 200 "METADATA")
    (Some (JArr [Demo.column "MatchID" "long" "identifier for the match";
                 JObj [("name", JStr "MatchRA");
                       ("description", JStr "right ascension")];
                 JStr "MatchDec"]))
    200.

Definition padded : World :=
  world_with (mkResponse 200 "METADATA")
    (Some (JArr [Demo.column " MatchID" "long" "identifier for the match";
                 Demo.column "MatchRA" "float" "right ascension"]))
    200.

Definition padded_rows : list meta_row :=
  [MetaRow (JStr " MatchID") (JStr "long") (JStr "identifier for the match");
   MetaRow (JStr "MatchRA") (JStr "float") (JStr "right ascension")].

Definition not_found_search : World :=
  world_with (mkResponse 200 "METADATA") (Demo.decode Demo.metadata_text) 404.

End Cases.

(** * Properties *)

(** ** Strings and dictionaries *)

Lemma str_in_In (s : string) (l : list string) : str_in s l = true <-> In s l.
Proof.
  unfold str_in. rewrite existsb_exists. split.
  - intros (x & Hx & E). apply String.eqb_eq in E. now subst.
  - intros H. exists s. split; [assumption | apply String.eqb_refl].
Qed.

Lemma str_in_not_In (s : string) (l : list string) :
  str_in s l = false <-> ~ In s l.
Proof.
  rewrite <- str_in_In. destruct (str_in s l); split; congruence.
Qed.

Lemma append_assoc (a b c : string) : (a ++ b) ++ c = a ++ (b ++ c).
Proof. induction a as [| x a IH]; simpl; [reflexivity | now rewrite IH]. Qed.

Lemma isspace_lower (c : ascii) : isspace (lower_ascii c) = isspace c.
Proof.
  destruct c as [[] [] [] [] [] [] [] []]; reflexivity.
Qed.

Lemma lower_chars (s : string) :
  list_ascii_of_string (lower s) = map lower_ascii (list_ascii_of_string s).
Proof. induction s as [| c s IH]; simpl; [reflexivity | now rewrite IH]. Qed.

Lemma lower_of_chars (l : list ascii) :
  lower (string_of_list_ascii l) = string_of_list_ascii (map lower_ascii l).
Proof. induction l as [| c l IH]; simpl; [reflexivity | now rewrite IH]. Qed.

Lemma lstrip_chars_lower (l : list ascii) :
  lstrip_chars (map lower_ascii l) = map lower_ascii (lstrip_chars l).
Proof.
  induction l as [| c l IH]; simpl; [reflexivity |].
  rewrite isspace_lower. now destruct (isspace c).
Qed.

(** Lower-casing and trimming commute, so the order in which the code
    applies them does not matter. *)
Lemma strip_lower (s : string) : strip (lower s) = lower (strip s).
Proof.
  unfold strip, rstrip, lstrip.
  rewrite !list_ascii_of_string_of_list_ascii, !lower_of_chars, lower_chars.
  rewrite lstrip_chars_lower.
  now rewrite <- !map_rev, lstrip_chars_lower, map_rev.
Qed.

Lemma dict_get_set_eq (k : string) (v : pyval) (d : dict) :
  dict_get k (dict_set k v d) = Some v.
Proof.
  induction d as [| [k' v'] d IH]; simpl.
  - now rewrite String.eqb_refl.
  - destruct (String.eqb k' k) eqn:E; simpl; now rewrite E.
Qed.

Lemma dict_get_set_ne (k k' : string) (v : pyval) (d : dict) :
  k <> k' -> dict_get k' (dict_set k v d) = dict_get k' d.
Proof.
  intros Hne. induction d as [| [k0 v0] d IH]; simpl.
  - destruct (String.eqb_spec k k'); [contradiction | reflexivity].
  - destruct (String.eqb_spec k0 k) as [-> | Hk]; simpl.
    + destruct (String.eqb_spec k k'); [contradiction | reflexivity].
    + now rewrite IH.
Qed.

Lemma dict_set_truthy (k : string) (v : pyval) (d : dict) :
  truthy (dict_set k v d) = true.
Proof.
  destruct d as [| [k' v'] d]; simpl; [reflexivity |].
  now destruct (String.eqb k' k).
Qed.

(** ** The legality check *)

Lemma checklegal_legal (table release magtype : string) :
  legal release table magtype -> checklegal table release magtype = inr tt.
Proof.
  intros [Ht Hm]. unfold checklegal.
  assert (Hr : str_in release releaselist = true).
  { apply str_in_In. unfold releaselist.
    destruct Ht as [[-> _] | [-> _]]; simpl; auto. }
  assert (Htl : str_in table (tablelist release) = true).
  { apply str_in_In.
    destruct Ht as [[-> H] | [-> H]]; simpl; intuition (subst; auto). }
  rewrite Hr, Htl. cbn [negb].
  destruct (String.eqb_spec table "summary") as [E | _]; [| reflexivity].
  assert (Hmt : str_in magtype magtypelist = true).
  { apply str_in_In. destruct (Hm E) as [-> | ->]; simpl; auto. }
  now rewrite Hmt.
Qed.

Lemma checklegal_error (table release magtype : string) (e : exn) :
  checklegal table release magtype = inl e -> InvalidCombination e.
Proof.
  unfold checklegal, InvalidCombination.
  destruct (str_in release releaselist); cbn [negb].
  2:{ intros [= <-]. now left. }
  destruct (str_in table (tablelist release)); cbn [negb].
  2:{ intros [= <-]. right; left. now exists release. }
  destruct (String.eqb table "summary"); [| discriminate].
  destruct (str_in magtype magtypelist); cbn [negb]; [discriminate |].
  intros [= <-]. now right; right.
Qed.

Lemma checklegal_passed (table release magtype : string) :
  checklegal table release magtype = inr tt -> legal release table magtype.
Proof.
  unfold checklegal.
  destruct (str_in release releaselist) eqn:Hr; cbn [negb]; [| discriminate].
  destruct (str_in table (tablelist release)) eqn:Htl; cbn [negb];
    [| discriminate].
  apply str_in_In in Hr, Htl. intros E.
  assert (Ht : legal_tables release table).
  { unfold legal_tables.
    destruct Hr as [<- | [<- | []]]; simpl in Htl; [left | right];
      (split; [reflexivity | intuition (subst; auto)]). }
  split; [assumption |]. intros ->. rewrite String.eqb_refl in E.
  destruct (str_in magtype magtypelist) eqn:Hm; cbn [negb] in E;
    [| discriminate].
  apply str_in_In in Hm. simpl in Hm. intuition (subst; auto).
Qed.

Lemma checklegal_illegal (table release magtype : string) :
  ~ legal release table magtype ->
  exists e, checklegal table release magtype = inl e /\ InvalidCombination e.
Proof.
  intros Hn. destruct (checklegal table release magtype) as [e | []] eqn:E.
  - exists e. split; [reflexivity | now apply checklegal_error in E].
  - now apply checklegal_passed in E.
Qed.

Lemma cat2url_legal (table release magtype baseurl : string) :
  legal release table magtype ->
  cat2url table release magtype baseurl
  = inr (base_path baseurl release table magtype).
Proof.
  intros H. unfold cat2url, base_path. rewrite (checklegal_legal _ _ _ H).
  now destruct (String.eqb table "summary").
Qed.

Lemma cat2url_illegal (table release magtype baseurl : string) :
  ~ legal release table magtype ->
  exists e, cat2url table release magtype baseurl = inl e
            /\ InvalidCombination e.
Proof.
  intros H. destruct (checklegal_illegal _ _ _ H) as (e & E & He).
  exists e. unfold cat2url. now rewrite E.
Qed.

Lemma legal_dec (release table magtype : string) :
  legal release table magtype \/ ~ legal release table magtype.
Proof.
  destruct (checklegal table release magtype) as [e | []] eqn:E.
  - right. intros H. rewrite (checklegal_legal _ _ _ H) in E. discriminate.
  - left. now apply checklegal_passed.
Qed.

(** ** How the functions run *)

Section Runs.

Context (W : World).

Lemma lookup_data (h : list dict) (kw d : dict) :
  (h ++ [kw; d])%list !! S (length h) = Some d.
Proof.
  change (h ++ [kw; d])%list with (h ++ [kw] ++ [d])%list.
  rewrite app_assoc. apply list_lookup_middle.
  rewrite length_app. simpl. lia.
Qed.

Lemma insert_data (h : list dict) (kw d d' : dict) :
  <[S (length h) := d']> (h ++ [kw; d])%list = (h ++ [kw; d'])%list.
Proof.
  rewrite insert_app_r_alt by lia.
  replace (S (length h) - length h) with 1 by lia. reflexivity.
Qed.

(** Binding the keywords, copying them and reading the copy. *)
Lemma enter_run {A : Type} (kw : dict) (k : loc -> dict -> M A) (s : State) :
  (kwl ← bind_kw kw; data ← dict_copy kwl; d ← deref data; k data d) s
  = k (S (length (heap s))) kw (entered kw s).
Proof.
  unfold bind_kw, dict_copy, deref, alloc, mbind, M_bind, entered. simpl.
  rewrite list_lookup_middle by reflexivity. simpl.
  rewrite list_lookup_middle by reflexivity.
  rewrite length_app, <- app_assoc. simpl.
  now replace (length (heap s) + 1) with (S (length (heap s))) by lia.
Qed.

Lemma bind_run {A B : Type} (m : M A) (f : A -> M B) (s : State) :
  (m ≫= f) s
  = match m s with
    | (inl e, s') => (inl e, s')
    | (inr x, s') => f x s'
    end.
Proof. reflexivity. Qed.

Lemma metadata_run (table release magtype baseurl : string) (s : State) :
  metadata W table release magtype baseurl s
  = match cat2url table release magtype baseurl with
    | inl e => (inl e, s)
    | inr base =>
        let rq := GET (base ++ "/metadata") None in
        (read_metadata W (server W (log s) rq), sent rq s)
    end.
Proof.
  unfold metadata, mbind, M_bind, lift, requests_get, raise_for_status,
    response_json, read_metadata, http_failed, sent, raise, mret, M_ret.
  destruct (cat2url table release magtype baseurl) as [e | base];
    [reflexivity |].
  cbv zeta.
  destruct ((400 <=? _) && _)%Z; [reflexivity |].
  destruct (json_loads W _) as [v |]; [| reflexivity].
  destruct (py_iter v); reflexivity.
Qed.

Lemma check_columns_run (tab : list meta_row) (cols : list string)
    (data : loc) (s : State) :
  check_columns tab cols data s
  = match map_raises (fun row => py_lower (meta_name row)) tab with
    | inl e => (inl e, s)
    | inr dcols =>
        let badcols :=
          List.filter (fun col => negb (str_in (strip (lower col)) dcols))
                      cols in
        if truthy badcols then (inl (UnknownColumn badcols), s)
        else dict_setitem data "columns" (columns_param cols) s
    end.
Proof.
  unfold check_columns, mbind, M_bind, lift.
  destruct (map_raises _ tab) as [e | dcols]; [reflexivity |].
  cbv zeta. now destruct (truthy _).
Qed.

(** Sending the search request and decoding the answer. *)
Lemma hsc_fetch_run (url format : string) (params : dict) (s : State) :
  (r ← requests_get W url (Some params);
   _ ← raise_for_status r;
   if String.eqb format "json" then
     j ← response_json W r; mret (ResJson W j)
   else if String.eqb format "table" then
     t ← response_table W r; mret (ResTable W t)
   else mret (ResText W (text r))) s
  = (hsc_decode W format (server W (log s) (GET url (Some params))),
     sent (GET url (Some params)) s).
Proof.
  unfold mbind, M_bind, requests_get, raise_for_status, response_json,
    response_table, hsc_decode, http_failed, sent, raise, mret, M_ret.
  cbv zeta.
  destruct ((400 <=? _) && _)%Z; [reflexivity |].
  destruct (String.eqb format "json").
  - destruct (json_loads W _); reflexivity.
  - destruct (String.eqb format "table"); [| reflexivity].
    destruct (read_csv W _); reflexivity.
Qed.

Lemma hcv_fetch_run (url format : string) (params : dict) (s : State) :
  (r ← requests_get W url (Some params);
   _ ← raise_for_status r;
   if String.eqb format "json" then
     j ← response_json W r; mret (ResJson W j)
   else mret (ResText W (text r))) s
  = (hcv_decode W format (server W (log s) (GET url (Some params))),
     sent (GET url (Some params)) s).
Proof.
  unfold mbind, M_bind, requests_get, raise_for_status, response_json,
    hcv_decode, http_failed, sent, raise, mret, M_ret.
  cbv zeta.
  destruct ((400 <=? _) && _)%Z; [reflexivity |].
  destruct (String.eqb format "json"); [| reflexivity].
  destruct (json_loads W _); reflexivity.
Qed.

Lemma setitem_data (h : list dict) (kw d : dict) (k : string) (v : pyval)
    (lg : list Request) :
  dict_setitem (S (length h)) k v (mkState (h ++ [kw; d])%list lg)
  = (inr tt, mkState (h ++ [kw; dict_set k v d])%list lg).
Proof.
  unfold dict_setitem. cbn [heap log].
  now rewrite lookup_data, insert_data.
Qed.

Lemma deref_data (h : list dict) (kw d : dict) (lg : list Request) :
  deref (S (length h)) (mkState (h ++ [kw; d])%list lg)
  = (inr d, mkState (h ++ [kw; d])%list lg).
Proof. unfold deref. cbn [heap]. now rewrite lookup_data. Qed.

(** Binding the keywords and copying them. *)
Lemma copy_run {A : Type} (kw : dict) (k : loc -> M A) (s : State) :
  (kwl ← bind_kw kw; data ← dict_copy kwl; k data) s
  = k (S (length (heap s))) (entered kw s).
Proof.
  unfold bind_kw, dict_copy, deref, alloc, mbind, M_bind, entered. simpl.
  rewrite list_lookup_middle by reflexivity. simpl.
  rewrite length_app, <- app_assoc. simpl.
  now replace (length (heap s) + 1) with (S (length (heap s))) by lia.
Qed.

Lemma hscsearch_run (table release magtype format : string)
    (columns : option (list string)) (baseurl : string) (verbose : bool)
    (kw : dict) (s : State) :
  hscsearch W table release magtype format columns baseurl verbose kw s
  = search_run W hsc_formats hsc_rformat (hsc_decode W)
      table release magtype format columns baseurl kw s.
Proof.
  unfold hscsearch. rewrite enter_run. unfold search_run.
  destruct (truthy kw); cbn [negb]; [| reflexivity].
  change (str_in format ["csv"; "votable"; "json"; "table"])
    with (str_in format hsc_formats).
  destruct (str_in format hsc_formats); cbn [negb]; [| reflexivity].
  rewrite bind_run. unfold lift at 1.
  destruct (cat2url table release magtype baseurl) as [e | base];
    [reflexivity |].
  rewrite bind_run.
  destruct (truthy (columns_given columns)).
  - rewrite bind_run. unfold hscmetadata. rewrite metadata_run.
    unfold columns_run.
    destruct (cat2url table release magtype Defaults.baseurl) as [e | mbase];
      [reflexivity |].
    cbv zeta. cbn [log entered].
    destruct (read_metadata W _) as [e | tab]; [reflexivity |].
    rewrite check_columns_run. unfold lowered_names.
    destruct (map_raises _ tab) as [e | dcols]; [reflexivity |].
    cbv zeta. fold (not_found dcols (columns_given columns)).
    destruct (truthy (not_found _ _)); [reflexivity |].
    unfold sent, entered. cbn [heap log].
    rewrite setitem_data, bind_run, deref_data, hsc_fetch_run.
    unfold fetch_run, sent, hsc_rformat. cbn [heap log].
    now rewrite <- app_assoc.
  - unfold mret at 1, M_ret at 1. unfold entered.
    rewrite bind_run, deref_data, hsc_fetch_run.
    unfold fetch_run, sent, hsc_rformat. cbn [heap log].
    now rewrite !app_nil_r.
Qed.
Lemma hcvsearch_run (table release magtype format : string)
    (columns : option (list string)) (baseurl : string) (verbose : bool)
    (kw : dict) (s : State) :
  hcvsearch W table release magtype format columns baseurl verbose kw s
  = search_run W hcv_formats hcv_rformat (hcv_decode W)
      table release magtype format columns baseurl kw s.
Proof.
  unfold hcvsearch. rewrite enter_run. unfold search_run.
  destruct (truthy kw); cbn [negb]; [| reflexivity].
  change (str_in format ["csv"; "votable"; "json"])
    with (str_in format hcv_formats).
  destruct (str_in format hcv_formats); cbn [negb]; [| reflexivity].
  rewrite bind_run. unfold lift at 1.
  destruct (cat2url table release magtype baseurl) as [e | base];
    [reflexivity |].
  rewrite bind_run.
  destruct (truthy (columns_given columns)).
  - rewrite bind_run. unfold hcvmetadata. rewrite metadata_run.
    unfold columns_run.
    destruct (cat2url table release magtype Defaults.baseurl) as [e | mbase];
      [reflexivity |].
    cbv zeta. cbn [log entered].
    destruct (read_metadata W _) as [e | tab]; [reflexivity |].
    rewrite check_columns_run. unfold lowered_names.
    destruct (map_raises _ tab) as [e | dcols]; [reflexivity |].
    cbv zeta. fold (not_found dcols (columns_given columns)).
    destruct (truthy (not_found _ _)); [reflexivity |].
    unfold sent, entered. cbn [heap log].
    rewrite setitem_data, bind_run, deref_data, hcv_fetch_run.
    unfold fetch_run, sent, hcv_rformat. cbn [heap log].
    now rewrite <- app_assoc.
  - unfold mret at 1, M_ret at 1. unfold entered.
    rewrite bind_run, deref_data, hcv_fetch_run.
    unfold fetch_run, sent, hcv_rformat. cbn [heap log].
    now rewrite !app_nil_r.
Qed.
Lemma hsccone_run (ra dec radius : pyval)
    (table release format magtype : string) (columns : option (list string))
    (baseurl : string) (verbose : bool) (kw : dict) (s : State) :
  hsccone W ra dec radius table release format magtype columns baseurl
    verbose kw s
  = hscsearch W table release magtype format columns baseurl verbose
      (cone_filters ra dec radius kw)
      (mkState (heap s ++ [kw; cone_filters ra dec radius kw])%list (log s)).
Proof.
  unfold hsccone. rewrite copy_run. unfold entered.
  rewrite bind_run, setitem_data, bind_run, setitem_data, bind_run,
    setitem_data, bind_run, deref_data.
  reflexivity.
Qed.

Lemma hcvcone_run (ra dec radius : pyval)
    (table release format magtype : string) (columns : option (list string))
    (baseurl : string) (verbose : bool) (kw : dict) (s : State) :
  hcvcone W ra dec radius table release format magtype columns baseurl
    verbose kw s
  = hcvsearch W table release magtype format columns baseurl verbose
      (cone_filters ra dec radius kw)
      (mkState (heap s ++ [kw; cone_filters ra dec radius kw])%list (log s)).
Proof.
  unfold hcvcone. rewrite copy_run. unfold entered.
  rewrite bind_run, setitem_data, bind_run, setitem_data, bind_run,
    setitem_data, bind_run, deref_data.
  reflexivity.
Qed.

End Runs.

(** ** Column validation *)

Lemma lowered_names_of (tab : list meta_row) (names : list string) :
  has_names tab names -> lowered_names tab = inr (map lower names).
Proof.
  unfold has_names, lowered_names. revert names.
  induction tab as [| row tab IH]; intros [| n names] H; simpl in H;
    try discriminate; [reflexivity |].
  injection H as Hn Ht. simpl. rewrite Hn. simpl.
  now rewrite (IH _ Ht).
Qed.

Lemma found_known (names : list string) (col : string) :
  str_in (strip (lower col)) (map lower names) = true
  <-> column_known names col.
Proof.
  rewrite str_in_In, in_map_iff, strip_lower. unfold column_known.
  split; intros (n & H1 & H2); exists n; tauto.
Qed.

(** The columns reported are exactly the requested ones that are unknown. *)
Lemma not_found_spec (names cols : list string) (col : string) :
  In col (not_found (map lower names) cols)
  <-> In col cols /\ ~ column_known names col.
Proof.
  unfold not_found. rewrite filter_In, <- found_known.
  destruct (str_in _ _); simpl; split; intros [H1 H2]; split;
    try assumption; congruence.
Qed.

Lemma not_found_nil (names cols : list string) :
  not_found (map lower names) cols = []
  <-> (forall col, In col cols -> column_known names col).
Proof.
  split.
  - intros E col Hc.
    destruct (str_in (strip (lower col)) (map lower names)) eqn:F.
    + now apply found_known.
    + assert (In col (not_found (map lower names) cols)) as Hin.
      { unfold not_found. apply filter_In. now rewrite F. }
      rewrite E in Hin. destruct Hin.
  - intros H. destruct (not_found (map lower names) cols) as [| c l] eqn:E;
      [reflexivity |].
    assert (In c (not_found (map lower names) cols)) as Hin
        by (rewrite E; now left).
    apply not_found_spec in Hin. destruct Hin as [Hc Hn].
    now destruct (Hn (H c Hc)).
Qed.

Lemma truthy_false {A : Type} (l : list A) : truthy l = false <-> l = [].
Proof. destruct l; simpl; split; congruence. Qed.

Lemma truthy_true {A : Type} (l : list A) : truthy l = true <-> l <> [].
Proof. destruct l; simpl; split; congruence. Qed.

(** The error kinds are distinct errors. *)
Lemma InvalidCombination_not_MissingParameters :
  ~ InvalidCombination MissingParameters.
Proof.
  intros [H | [[r H] | H]]; unfold MissingParameters, bad_release, bad_table,
    bad_magtype in H; simpl in H; discriminate.
Qed.

Lemma InvalidCombination_not_UnsupportedFormat :
  ~ InvalidCombination UnsupportedFormat.
Proof.
  intros [H | [[r H] | H]]; unfold UnsupportedFormat, bad_release, bad_table,
    bad_magtype in H; simpl in H; discriminate.
Qed.

Lemma InvalidCombination_not_UnknownColumn (badcols : list string) :
  ~ InvalidCombination (UnknownColumn badcols).
Proof.
  intros [H | [[r H] | H]]; unfold UnknownColumn, bad_release, bad_table,
    bad_magtype in H; simpl in H; discriminate.
Qed.

Lemma UnknownColumn_not_MissingParameters (badcols : list string) :
  UnknownColumn badcols <> MissingParameters.
Proof. unfold UnknownColumn, MissingParameters. simpl. discriminate. Qed.

Lemma UnknownColumn_not_UnsupportedFormat (badcols : list string) :
  UnknownColumn badcols <> UnsupportedFormat.
Proof. unfold UnknownColumn, UnsupportedFormat. simpl. discriminate. Qed.

Lemma MissingParameters_not_UnsupportedFormat :
  MissingParameters <> UnsupportedFormat.
Proof. discriminate. Qed.

Lemma UnknownColumn_not_early (badcols : list string) :
  ~ early_error (UnknownColumn badcols).
Proof.
  intros [H | [H | H]].
  - now apply UnknownColumn_not_MissingParameters in H.
  - now apply UnknownColumn_not_UnsupportedFormat in H.
  - now apply InvalidCombination_not_UnknownColumn in H.
Qed.

Lemma cat2url_error (table release magtype baseurl : string) (e : exn) :
  cat2url table release magtype baseurl = inl e -> InvalidCombination e.
Proof.
  unfold cat2url.
  destruct (checklegal table release magtype) as [e' | u] eqn:E.
  - intros [= <-]. now apply checklegal_error in E.
  - destruct (String.eqb table "summary"); discriminate.
Qed.

Lemma cat2url_passed (table release magtype baseurl base : string) :
  cat2url table release magtype baseurl = inr base ->
  legal release table magtype
  /\ base = base_path baseurl release table magtype.
Proof.
  intros E. destruct (legal_dec release table magtype) as [H | H].
  - split; [assumption |]. rewrite (cat2url_legal _ _ _ _ H) in E. congruence.
  - destruct (cat2url_illegal table release magtype baseurl H) as (e & E' & _).
    congruence.
Qed.

(** ** Errors that are not [ValueError]s *)

Lemma InvalidCombination_ValueError (e : exn) :
  InvalidCombination e -> exists msg, e = ValueError msg.
Proof.
  intros [-> | [[r ->] | ->]]; unfold bad_release, bad_table, bad_magtype;
    eauto.
Qed.

Lemma row_of_error (x : json) (e : exn) : row_of x = inl e -> other_error e.
Proof.
  unfold row_of, getitem. intros H msg ->.
  destruct x; try discriminate.
  repeat (match type of H with
          | context [members_get ?k ?m] => destruct (members_get k m)
          end; try discriminate).
Qed.

Lemma map_raises_error {A B : Type} (f : A -> raises B) (l : list A)
    (e : exn) :
  (forall x e', f x = inl e' -> other_error e') ->
  map_raises f l = inl e -> other_error e.
Proof.
  intros Hf. induction l as [| x l IH]; simpl; [discriminate |].
  destruct (f x) as [e' | y] eqn:E.
  - intros [= <-]. now apply (Hf x).
  - destruct (map_raises f l); [| discriminate].
    intros [= <-]. now apply IH.
Qed.

Section DecodeErrors.

Context (W : World).

Lemma read_metadata_error (r : Response) (e : exn) :
  read_metadata W r = inl e -> other_error e.
Proof.
  unfold read_metadata.
  destruct (http_failed r); [intros [= <-] msg; discriminate |].
  destruct (json_loads W (text r)) as [v |];
    [| intros [= <-] msg; discriminate].
  destruct (py_iter v) as [e' | xs] eqn:E.
  - intros [= <-] msg. destruct v; simpl in E; congruence.
  - apply map_raises_error. apply row_of_error.
Qed.

Lemma lowered_names_error (tab : list meta_row) (e : exn) :
  lowered_names tab = inl e -> other_error e.
Proof.
  apply map_raises_error. intros row e'. unfold py_lower.
  destruct (meta_name row); intros [= <-] msg; discriminate.
Qed.

Lemma hsc_decode_error (format : string) (r : Response) (e : exn) :
  hsc_decode W format r = inl e -> other_error e.
Proof.
  unfold hsc_decode.
  destruct (http_failed r); [intros [= <-] msg; discriminate |].
  destruct (String.eqb format "json").
  - destruct (json_loads W (text r)); [discriminate |].
    intros [= <-] msg; discriminate.
  - destruct (String.eqb format "table"); [| discriminate].
    destruct (read_csv W (text r)); [discriminate |].
    intros [= <-] msg; discriminate.
Qed.

Lemma hcv_decode_error (format : string) (r : Response) (e : exn) :
  hcv_decode W format r = inl e -> other_error e.
Proof.
  unfold hcv_decode.
  destruct (http_failed r); [intros [= <-] msg; discriminate |].
  destruct (String.eqb format "json"); [| discriminate].
  destruct (json_loads W (text r)); [discriminate |].
  intros [= <-] msg; discriminate.
Qed.

End DecodeErrors.

(** ** The stages of a search *)

Section SearchFacts.

Context (W : World).
Context (formats : list string) (rformat : string -> string)
        (decode : string -> Response -> raises (result W)).

Lemma search_run_empty table release magtype format columns baseurl s :
  search_run W formats rformat decode table release magtype format columns baseurl [] s
  = (inl MissingParameters, entered [] s).
Proof. reflexivity. Qed.

Lemma search_run_bad_format table release magtype format columns baseurl
    kw s :
  kw <> [] -> ~ In format formats ->
  search_run W formats rformat decode table release magtype format columns baseurl kw s
  = (inl UnsupportedFormat, entered kw s).
Proof.
  intros Hkw Hf. unfold search_run.
  apply truthy_true in Hkw. apply str_in_not_In in Hf.
  now rewrite Hkw, Hf.
Qed.

Lemma search_run_illegal table release magtype format columns baseurl
    kw s :
  kw <> [] -> In format formats -> ~ legal release table magtype ->
  exists e, InvalidCombination e
            /\ search_run W formats rformat decode table release magtype format columns baseurl kw s
               = (inl e, entered kw s).
Proof.
  intros Hkw Hf Hl. unfold search_run.
  apply truthy_true in Hkw. apply str_in_In in Hf.
  destruct (cat2url_illegal table release magtype baseurl Hl)
    as (e & E & He).
  exists e. split; [assumption |]. now rewrite Hkw, Hf, E.
Qed.

(** With filters, a supported format and a legal combination the search
    goes on to the columns, if any were requested. *)
Lemma search_run_checked table release magtype format columns baseurl
    kw s :
  kw <> [] -> In format formats -> legal release table magtype ->
  search_run W formats rformat decode table release magtype format columns baseurl kw s
  = let url := base_path baseurl release table magtype
               ++ "." ++ rformat format in
    if truthy (columns_given columns)
    then columns_run W decode table release magtype format url
           (columns_given columns) kw s
    else fetch_run W decode url format kw kw s [].
Proof.
  intros Hkw Hf Hl. unfold search_run.
  apply truthy_true in Hkw. apply str_in_In in Hf.
  now rewrite Hkw, Hf, (cat2url_legal _ _ _ _ Hl).
Qed.

(** The columns stage when the metadata request answers with a table
    whose names are [names]. *)
Lemma columns_run_names table release magtype format url cols kw s tab
    names :
  legal release table magtype ->
  read_metadata W (server W (log s) (metadata_request table release magtype))
  = inr tab ->
  has_names tab names ->
  columns_run W decode table release magtype format url cols kw s
  = if truthy (not_found (map lower names) cols)
    then (inl (UnknownColumn (not_found (map lower names) cols)),
          sent (metadata_request table release magtype) (entered kw s))
    else fetch_run W decode url format kw
           (dict_set "columns" (columns_param cols) kw) s
           [metadata_request table release magtype].
Proof.
  intros Hl Hm Hn. unfold columns_run.
  rewrite (cat2url_legal _ _ _ _ Hl). cbv zeta.
  fold (metadata_request table release magtype).
  now rewrite Hm, (lowered_names_of _ _ Hn).
Qed.


End SearchFacts.

(** ** When a [ValueError] leaves a search *)

Section ValueErrors.

Context (W : World).
Context (formats : list string) (rformat : string -> string)
        (decode : string -> Response -> raises (result W)).
Hypothesis decode_error :
  forall format r e, decode format r = inl e -> other_error e.

(** A [ValueError] is raised either before any request, and is then one of
    the three early kinds, or right after the metadata request, and is then
    the report of the unknown columns. *)
Lemma search_run_value_error table release magtype format columns baseurl
    kw s msg :
  let r := search_run W formats rformat decode table release magtype format
             columns baseurl kw s in
  fst r = inl (ValueError msg) ->
  (log (snd r) = log s
   /\ ((kw = [] /\ ValueError msg = MissingParameters)
       \/ (kw <> [] /\ ~ In format formats
           /\ ValueError msg = UnsupportedFormat)
       \/ (kw <> [] /\ In format formats
           /\ ~ legal release table magtype
           /\ InvalidCombination (ValueError msg))))
  \/ (exists badcols,
        kw <> [] /\ In format formats /\ legal release table magtype
        /\ badcols <> []
        /\ ValueError msg = UnknownColumn badcols
        /\ log (snd r)
           = (log s ++ [metadata_request table release magtype])%list).
Proof.
  cbv zeta. unfold search_run.
  destruct (truthy kw) eqn:Ekw; cbn [negb].
  2:{ intros [= <-]. apply truthy_false in Ekw. left. auto. }
  apply truthy_true in Ekw.
  destruct (str_in format formats) eqn:Ef; cbn [negb].
  2:{ intros [= <-]. apply str_in_not_In in Ef. left. auto 6. }
  apply str_in_In in Ef.
  destruct (cat2url table release magtype baseurl) as [e | base] eqn:E.
  { cbn [fst snd]. intros [= ->]. left. split; [reflexivity |].
    right; right. split; [assumption |]. split; [assumption |]. split.
    - intros Hl. rewrite (cat2url_legal _ _ _ _ Hl) in E. discriminate.
    - now apply cat2url_error in E. }
  apply cat2url_passed in E. destruct E as [Hl _].
  destruct (truthy (columns_given columns)).
  2:{ unfold fetch_run. cbn [fst]. intros H.
      now destruct (decode_error _ _ _ H msg). }
  unfold columns_run. rewrite (cat2url_legal _ _ _ _ Hl). cbv zeta.
  fold (metadata_request table release magtype).
  destruct (read_metadata W _) as [e | tab] eqn:Em.
  { cbn [fst]. intros [= ->].
    now destruct (read_metadata_error _ _ _ Em msg). }
  destruct (lowered_names tab) as [e | dcols] eqn:En.
  { cbn [fst]. intros [= ->].
    now destruct (lowered_names_error _ _ En msg). }
  destruct (truthy (not_found dcols (columns_given columns))) eqn:Eb.
  - cbn [fst snd]. intros [= <-]. right.
    exists (not_found dcols (columns_given columns)).
    apply truthy_true in Eb. auto 8.
  - unfold fetch_run. cbn [fst]. intros H.
    now destruct (decode_error _ _ _ H msg).
Qed.

End ValueErrors.

(** ** The metadata a search sees *)

Section Metadata.

Context (W : World).

Lemma hscmetadata_legal (table release magtype : string) (s : State) :
  legal release table magtype ->
  hscmetadata W table release magtype Defaults.baseurl s
  = (read_metadata W
       (server W (log s) (metadata_request table release magtype)),
     sent (metadata_request table release magtype) s).
Proof.
  intros Hl. unfold hscmetadata. rewrite metadata_run.
  now rewrite (cat2url_legal _ _ _ _ Hl).
Qed.

(** With filters, a supported format, a legal combination and a metadata
    table of names [names], [hscsearch] with requested columns either
    reports the unknown ones or sends the search request. *)
Lemma hscsearch_columns (table release magtype format : string)
    (cols : list string) (baseurl : string) (verbose : bool) (kw : dict)
    (s : State) (tab : list meta_row) (names : list string) :
  kw <> [] -> In format hsc_formats -> legal release table magtype ->
  cols <> [] ->
  fst (hscmetadata W table release magtype Defaults.baseurl s) = inr tab ->
  has_names tab names ->
  hscsearch W table release magtype format (Some cols) baseurl verbose kw s
  = if truthy (not_found (map lower names) cols)
    then (inl (UnknownColumn (not_found (map lower names) cols)),
          sent (metadata_request table release magtype) (entered kw s))
    else fetch_run W (hsc_decode W)
           (base_path baseurl release table magtype ++ "."
            ++ hsc_rformat format)
           format kw (dict_set "columns" (columns_param cols) kw) s
           [metadata_request table release magtype].
Proof.
  intros Hkw Hf Hl Hc Hm Hn.
  rewrite hscmetadata_legal in Hm by assumption. cbn [fst] in Hm.
  rewrite hscsearch_run, search_run_checked by assumption.
  cbv zeta. cbn [columns_given]. apply truthy_true in Hc. rewrite Hc.
  now apply columns_run_names with (tab := tab).
Qed.

End Metadata.

(** ** Joining and splitting back *)

Lemma split_whole (sep : ascii) (x : string) :
  ~ In sep (list_ascii_of_string x) -> split sep x = [x].
Proof.
  induction x as [| c x IH]; simpl; [reflexivity |]. intros H.
  destruct (Ascii.eqb_spec c sep) as [E | _]; [now destruct H; left |].
  rewrite IH by tauto. reflexivity.
Qed.

Lemma split_piece (sep : ascii) (x rest : string) :
  ~ In sep (list_ascii_of_string x) ->
  split sep (x ++ String sep rest) = x :: split sep rest.
Proof.
  induction x as [| c x IH]; simpl.
  - intros _. now rewrite Ascii.eqb_refl.
  - intros H. destruct (Ascii.eqb_spec c sep) as [E | _];
      [now destruct H; left |].
    rewrite IH by tauto. reflexivity.
Qed.

(** Splitting a joined list gives the list back, as long as no element
    holds the separator. *)
Lemma split_join (sep : ascii) (l : list string) :
  l <> [] ->
  (forall x, In x l -> ~ In sep (list_ascii_of_string x)) ->
  split sep (join (String sep EmptyString) l) = l.
Proof.
  induction l as [| x l IH]; [contradiction |]. intros _ H.
  destruct l as [| y l].
  - simpl. apply split_whole. apply H. now left.
  - change (join (String sep EmptyString) (x :: y :: l))
      with (x ++ String sep (join (String sep EmptyString) (y :: l))).
    rewrite split_piece by (apply H; now left).
    rewrite IH; [reflexivity | discriminate |].
    intros z Hz. apply H. now right.
Qed.

(** Every element of a joined list occurs in the result. *)
Lemma join_mentions (sep : string) (l : list string) (x : string) :
  In x l -> exists pre post, join sep l = pre ++ x ++ post.
Proof.
  induction l as [| y l IH]; [contradiction |]. intros [-> | H].
  - destruct l as [| z l].
    + exists "", "". simpl. clear. induction x; simpl; congruence.
    + exists "", (sep ++ join sep (z :: l)). reflexivity.
  - destruct l as [| z l]; [destruct H |].
    destruct (IH H) as (pre & post & E).
    exists (y ++ sep ++ pre), post.
    change (join sep (y :: z :: l)) with (y ++ sep ++ join sep (z :: l)).
    rewrite E. now rewrite !append_assoc.
Qed.

(** ** Keywords that are new to a dictionary *)





(** * The claims *)

(** C1: for every (release, table, magtype) in the legal set, [cat2url]
    returns exactly base/release/table, with /magtype appended for the
    summary table; for every combination outside the set (release v2 with
    table hcv, for one) it raises a [ValueError] of the InvalidCombination
    kind and returns no URL. *)
Theorem cat2url_legal_set (baseurl release table magtype : string) :
  (legal release table magtype ->
   cat2url table release magtype baseurl
   = inr (if String.eqb table "summary"
          then baseurl ++ "/" ++ release ++ "/" ++ table ++ "/" ++ magtype
          else baseurl ++ "/" ++ release ++ "/" ++ table))
  /\ (~ legal release table magtype ->
      exists msg,
        cat2url table release magtype baseurl = inl (ValueError msg)
        /\ InvalidCombination (ValueError msg)).
Proof.
  split.
  - apply cat2url_legal.
  - intros H. destruct (cat2url_illegal table release magtype baseurl H)
      as (e & E & He).
    destruct (InvalidCombination_ValueError e He) as [msg ->]. eauto.
Qed.

Lemma cat2url_legal_set_witness :
  cat2url "summary" "v3" "magauto" hscapiurl
  = inr "https://catalogs.mast.stsci.edu/api/v0.1/hsc/v3/summary/magauto"
  /\ cat2url "hcv" "v3" "anything" hscapiurl
     = inr "https://catalogs.mast.stsci.edu/api/v0.1/hsc/v3/hcv"
  /\ exists msg,
       cat2url "hcv" "v2" "magaper2" hscapiurl = inl (ValueError msg)
       /\ InvalidCombination (ValueError msg).
Proof.
  split; [| split].
  - apply (proj1 (cat2url_legal_set hscapiurl "v3" "summary" "magauto")).
    split; [right; split; auto | auto].
  - apply (proj1 (cat2url_legal_set hscapiurl "v3" "hcv" "anything")).
    split; [right; split; auto 10 | discriminate].
  - apply (proj2 (cat2url_legal_set hscapiurl "v2" "hcv" "magaper2")).
    intros [[[_ [H | H]] | [H _]] _]; discriminate.
Defined.

Section Claims.

Context (W : World).

(** C3: a search called with an empty filter mapping fails with the
    MissingParameters [ValueError], whatever its other arguments (a list of
    columns included), and no request is sent; so for [hscsearch] and for
    [hcvsearch]. *)
Theorem search_without_filters (table release magtype format : string)
    (columns : option (list string)) (baseurl : string) (verbose : bool)
    (s : State) :
  (fst (hscsearch W table release magtype format columns baseurl verbose [] s)
   = inl (ValueError "You must specify some parameters for search")
   /\ log (snd (hscsearch W table release magtype format columns baseurl
                  verbose [] s)) = log s)
  /\ (fst (hcvsearch W table release magtype format columns baseurl verbose
             [] s)
      = inl (ValueError "You must specify some parameters for search")
      /\ log (snd (hcvsearch W table release magtype format columns baseurl
                     verbose [] s)) = log s).
Proof.
  rewrite hscsearch_run, hcvsearch_run, !search_run_empty. auto.
Qed.

(** C6, as amended: with at least one filter, [hscsearch] fails with the
    UnsupportedFormat [ValueError], before any request, exactly when the
    format is none of csv, votable, json, table, and [hcvsearch] exactly
    when it is none of csv, votable, json: table is not a format of
    [hcvsearch]. *)
Theorem format_check (table release magtype format : string)
    (columns : option (list string)) (baseurl : string) (verbose : bool)
    (kw : dict) (s : State) :
  kw <> [] ->
  let hsc := hscsearch W table release magtype format columns baseurl verbose
               kw s in
  let hcv := hcvsearch W table release magtype format columns baseurl verbose
               kw s in
  (~ In format ["csv"; "votable"; "json"; "table"] ->
   fst hsc = inl UnsupportedFormat /\ log (snd hsc) = log s)
  /\ (In format ["csv"; "votable"; "json"; "table"] ->
      fst hsc <> inl UnsupportedFormat)
  /\ (~ In format ["csv"; "votable"; "json"] ->
      fst hcv = inl UnsupportedFormat /\ log (snd hcv) = log s)
  /\ (In format ["csv"; "votable"; "json"] ->
      fst hcv <> inl UnsupportedFormat).
Proof.
  intros Hkw. cbv zeta. rewrite hscsearch_run, hcvsearch_run.
  assert (passes : forall formats rformat decode,
    (forall f r e, decode f r = inl e -> other_error e) ->
    In format formats ->
    fst (search_run W formats rformat decode table release magtype format
           columns baseurl kw s) <> inl UnsupportedFormat).
  { intros formats rformat decode Hd Hf H.
    destruct (search_run_value_error W formats rformat decode Hd _ _ _ _ _ _
                _ _ _ H)
      as [[_ [[Hk _] | [(_ & Hn & _) | (_ & _ & _ & Hi)]]]
         | (bad & _ & _ & _ & _ & Hb & _)].
    - contradiction.
    - contradiction.
    - now apply InvalidCombination_not_UnsupportedFormat.
    - symmetry in Hb. now apply UnknownColumn_not_UnsupportedFormat in Hb. }
  split; [| split; [| split]].
  - intros Hf. now rewrite search_run_bad_format.
  - apply passes, hsc_decode_error.
  - intros Hf. now rewrite search_run_bad_format.
  - apply passes, hcv_decode_error.
Qed.

(** C8: the validations of [hscsearch] come in a fixed order: no filters
    gives MissingParameters whatever else is wrong; with filters, an
    unsupported format gives UnsupportedFormat whatever else is wrong; with
    filters and a supported format, an illegal combination gives
    InvalidCombination whatever the columns; only then are unknown columns
    reported (for requested columns of ASCII text and a metadata table of
    plain strings, on which the model compares names as Python does). *)
Theorem validation_order (table release magtype format : string)
    (columns : option (list string)) (baseurl : string) (verbose : bool)
    (kw : dict) (s : State) :
  let r := hscsearch W table release magtype format columns baseurl verbose
             kw s in
  (kw = [] -> fst r = inl MissingParameters)
  /\ (kw <> [] -> ~ In format hsc_formats -> fst r = inl UnsupportedFormat)
  /\ (kw <> [] -> In format hsc_formats -> ~ legal release table magtype ->
      exists e, fst r = inl e /\ InvalidCombination e)
  /\ (kw <> [] -> In format hsc_formats -> legal release table magtype ->
      forall cols tab names,
        columns = Some cols ->
        ascii_columns cols ->
        fst (hscmetadata W table release magtype Defaults.baseurl s)
        = inr tab ->
        text_table tab ->
        has_names tab names ->
        (exists col, In col cols /\ ~ column_known names col) ->
        exists badcols,
          badcols <> [] /\ fst r = inl (UnknownColumn badcols)).
Proof.
  cbv zeta. split; [| split; [| split]].
  - intros ->. now rewrite hscsearch_run, search_run_empty.
  - intros Hkw Hf. now rewrite hscsearch_run, search_run_bad_format.
  - intros Hkw Hf Hl. rewrite hscsearch_run.
    destruct (search_run_illegal W hsc_formats hsc_rformat (hsc_decode W)
                table release magtype format columns baseurl kw s Hkw Hf Hl)
      as (e & He & E).
    exists e. now rewrite E.
  - intros Hkw Hf Hl cols tab names -> _ Hm _ Hn (col & Hc & Hu).
    assert (Hne : cols <> []) by (intros ->; destruct Hc).
    assert (Hin : In col (not_found (map lower names) cols))
      by now apply not_found_spec.
    assert (Hb : not_found (map lower names) cols <> [])
      by (intros E; rewrite E in Hin; destruct Hin).
    exists (not_found (map lower names) cols). split; [assumption |].
    rewrite (hscsearch_columns W table release magtype format cols baseurl
               verbose kw s tab names) by assumption.
    apply truthy_true in Hb. now rewrite Hb.
Qed.

(** C2, as amended: when a search raises a [ValueError], either no request
    has been sent and the error is MissingParameters, UnsupportedFormat or
    InvalidCombination, or the error is UnknownColumn (and none of the
    former) and exactly one request has been sent, the one for the metadata
    the columns are checked against; the search request itself has not been
    sent.  So for [hscsearch] and for [hcvsearch]. *)
Theorem validation_errors_and_requests (table release magtype format : string)
    (columns : option (list string)) (baseurl : string) (verbose : bool)
    (kw : dict) (s : State) (msg : string) :
  (fst (hscsearch W table release magtype format columns baseurl verbose kw s)
   = inl (ValueError msg) ->
   (early_error (ValueError msg)
    /\ log (snd (hscsearch W table release magtype format columns baseurl
                   verbose kw s)) = log s)
   \/ (exists badcols,
         badcols <> [] /\ ValueError msg = UnknownColumn badcols
         /\ ~ early_error (ValueError msg)
         /\ log (snd (hscsearch W table release magtype format columns
                        baseurl verbose kw s))
            = (log s ++ [metadata_request table release magtype])%list))
  /\ (fst (hcvsearch W table release magtype format columns baseurl verbose
             kw s)
      = inl (ValueError msg) ->
      (early_error (ValueError msg)
       /\ log (snd (hcvsearch W table release magtype format columns baseurl
                      verbose kw s)) = log s)
      \/ (exists badcols,
            badcols <> [] /\ ValueError msg = UnknownColumn badcols
            /\ ~ early_error (ValueError msg)
            /\ log (snd (hcvsearch W table release magtype format columns
                           baseurl verbose kw s))
               = (log s ++ [metadata_request table release magtype])%list)).
Proof.
  rewrite hscsearch_run, hcvsearch_run.
  split; intros H;
    (eapply search_run_value_error in H;
     [| first [apply hsc_decode_error | apply hcv_decode_error]]);
    (destruct H as [[Hlog [[_ E] | [(_ & _ & E) | (_ & _ & _ & E)]]]
                   | (bad & _ & _ & _ & Hb & E & Hlog)];
     [left; split; [now left | assumption]
     | left; split; [now right; left | assumption]
     | left; split; [now right; right | assumption]
     | right; exists bad; rewrite E;
       auto using UnknownColumn_not_early]).
Qed.

(** C4: [hscsearch] called with filters, a supported format, a legal
    combination and a non-empty list of columns of ASCII text, the metadata
    of the table being plain strings with the names [names] (where the
    model compares names as Python does): if some requested column, trimmed and
    compared without regard to case, is none of the names, the call fails
    with the UnknownColumn [ValueError] whose message lists, joined by a
    comma and a space, exactly the requested columns that are unknown, in
    the order requested, so that each of them can be read in the message;
    if every requested column is known, validation
    succeeds: no [ValueError] is raised and the search request is sent. *)
Theorem unknown_columns_reported (table release magtype format : string)
    (cols : list string) (baseurl : string) (verbose : bool) (kw : dict)
    (s : State) (tab : list meta_row) (names : list string) :
  kw <> [] -> In format hsc_formats -> legal release table magtype ->
  cols <> [] -> ascii_columns cols ->
  fst (hscmetadata W table release magtype Defaults.baseurl s) = inr tab ->
  text_table tab -> has_names tab names ->
  let r := hscsearch W table release magtype format (Some cols) baseurl
             verbose kw s in
  ((exists col, In col cols /\ ~ column_known names col) ->
   exists badcols,
     fst r = inl (ValueError ("Some columns not found in table: "
                              ++ join ", " badcols))
     /\ badcols <> []
     /\ badcols
        = List.filter
            (fun col => negb (str_in (strip (lower col)) (map lower names)))
            cols
     /\ (forall col,
           In col badcols <-> In col cols /\ ~ column_known names col)
     /\ (forall col,
           In col badcols ->
           exists pre post,
             fst r = inl (ValueError ("Some columns not found in table: "
                                      ++ pre ++ col ++ post))))
  /\ ((forall col, In col cols -> column_known names col) ->
      (forall msg, fst r <> inl (ValueError msg))
      /\ exists params,
           log (snd r)
           = (log s ++ [metadata_request table release magtype;
                        GET (base_path baseurl release table magtype ++ "."
                             ++ hsc_rformat format)
                            (Some params)])%list).
Proof.
  intros Hkw Hf Hl Hc _ Hm _ Hn. cbv zeta.
  rewrite (hscsearch_columns W table release magtype format cols baseurl
             verbose kw s tab names) by assumption.
  split.
  - intros (col & Hin & Hu).
    assert (Hb : In col (not_found (map lower names) cols))
      by now apply not_found_spec.
    assert (Hne : not_found (map lower names) cols <> [])
      by (intros E; rewrite E in Hb; destruct Hb).
    exists (not_found (map lower names) cols).
    pose proof Hne as Ht. apply truthy_true in Ht. rewrite Ht.
    split; [reflexivity |]. split; [assumption |]. split; [reflexivity |].
    split; [intros c; apply not_found_spec |].
    intros c Hbad.
    destruct (join_mentions ", " _ c Hbad) as (pre & post & E).
    exists pre, post. cbn [fst]. unfold UnknownColumn. now rewrite E.
  - intros Hall. apply not_found_nil in Hall. rewrite Hall. cbn [truthy].
    unfold fetch_run. cbn [fst snd log]. split.
    + intros msg H. now destruct (hsc_decode_error W _ _ _ H msg).
    + eexists. reflexivity.
Qed.

(** C10: requested columns are lower-cased and trimmed only to validate
    them.  For requested columns of ASCII text and a metadata table of
    plain strings: when every requested column is known (so also one that
    differs from a metadata name by case or by surrounding whitespace
    only), the search request carries, besides the filters, the entry
    columns whose value is the requested strings as they were given, joined
    by commas between brackets; so that, if no column holds a comma,
    splitting the text between the brackets at the commas gives the
    requested columns back, letter for letter. *)
Theorem columns_sent_as_requested (table release magtype format : string)
    (cols : list string) (baseurl : string) (verbose : bool) (kw : dict)
    (s : State) (tab : list meta_row) (names : list string) :
  kw <> [] -> In format hsc_formats -> legal release table magtype ->
  cols <> [] -> ascii_columns cols ->
  fst (hscmetadata W table release magtype Defaults.baseurl s) = inr tab ->
  text_table tab -> has_names tab names ->
  (forall col, In col cols ->
               exists n, In n names /\ lower n = lower (strip col)) ->
  let r := hscsearch W table release magtype format (Some cols) baseurl
             verbose kw s in
  exists params,
    log (snd r)
    = (log s ++ [metadata_request table release magtype;
                 GET (base_path baseurl release table magtype ++ "."
                      ++ hsc_rformat format)
                     (Some params)])%list
    /\ params = dict_set "columns" (PyStr ("[" ++ join "," cols ++ "]")) kw
    /\ dict_get "columns" params = Some (PyStr ("[" ++ join "," cols ++ "]"))
    /\ (forall k, k <> "columns" -> dict_get k params = dict_get k kw)
    /\ ((forall col, In col cols ->
                     ~ In ","%char (list_ascii_of_string col)) ->
        exists body,
          dict_get "columns" params = Some (PyStr ("[" ++ body ++ "]"))
          /\ split "," body = cols).
Proof.
  intros Hkw Hf Hl Hc _ Hm _ Hn Hall. cbv zeta.
  rewrite (hscsearch_columns W table release magtype format cols baseurl
             verbose kw s tab names) by assumption.
  apply not_found_nil in Hall. rewrite Hall. cbn [truthy].
  unfold fetch_run, columns_param. cbn [snd log].
  eexists. split; [reflexivity |]. split; [reflexivity |].
  split; [apply dict_get_set_eq |]. split.
  - intros k Hk. apply dict_get_set_ne. congruence.
  - intros Hcomma. exists (join "," cols).
    split; [apply dict_get_set_eq |].
    now apply (split_join ","%char).
Qed.

(** C5: [hscsearch] with the format table sends the very requests it sends
    with the format csv, so the search request goes to the URL ending in
    .csv; whenever it returns, it returns a table, the one read from the
    text that the csv call returns, whose row count is therefore the row
    count of the raw text read directly. *)
Theorem table_format_reads_csv (table release magtype : string)
    (columns : option (list string)) (baseurl : string) (verbose : bool)
    (kw : dict) (s : State) :
  let rt := hscsearch W table release magtype "table" columns baseurl verbose
              kw s in
  let rc := hscsearch W table release magtype "csv" columns baseurl verbose
              kw s in
  snd rt = snd rc
  /\ read_from W (fst rt) (fst rc)
  /\ (forall res, fst rt = inr res ->
      exists t body before params,
        res = ResTable W t
        /\ log (snd rt)
           = (before ++ [GET (base_path baseurl release table magtype
                              ++ ".csv") (Some params)])%list
        /\ fst rc = inr (ResText W body)
        /\ read_csv W body = Some t
        /\ (forall t', read_csv W body = Some t' ->
                       table_len W t = table_len W t')).
Proof.
  assert (Hd : forall r, read_from W (hsc_decode W "table" r)
                                     (hsc_decode W "csv" r)).
  { intros r. unfold hsc_decode, read_from.
    destruct (http_failed r); [reflexivity |]. cbn.
    destruct (read_csv W (text r)); reflexivity. }
  assert (Hf : forall url params before,
    let ft := fetch_run W (hsc_decode W) url "table" kw params s before in
    let fc := fetch_run W (hsc_decode W) url "csv" kw params s before in
    snd ft = snd fc /\ read_from W (fst ft) (fst fc)
    /\ log (snd ft)
       = ((log s ++ before) ++ [GET url (Some params)])%list).
  { intros url params before. unfold fetch_run. cbn [fst snd log].
    rewrite app_assoc. auto. }
  assert (Hr : forall rt rc : raises (result W) * State,
    snd rt = snd rc /\ read_from W (fst rt) (fst rc)
    /\ (forall res, fst rt = inr res ->
        exists before params,
          log (snd rt)
          = (before ++ [GET (base_path baseurl release table magtype
                             ++ ".csv") (Some params)])%list) ->
    snd rt = snd rc /\ read_from W (fst rt) (fst rc)
    /\ (forall res, fst rt = inr res ->
        exists t body before params,
          res = ResTable W t
          /\ log (snd rt)
             = (before ++ [GET (base_path baseurl release table magtype
                                ++ ".csv") (Some params)])%list
          /\ fst rc = inr (ResText W body)
          /\ read_csv W body = Some t
          /\ (forall t', read_csv W body = Some t' ->
                         table_len W t = table_len W t'))).
  { intros rt rc (Hs & Hrf & Hu). split; [assumption |].
    split; [assumption |]. intros res Hres.
    destruct (Hu res Hres) as (before & params & Hlog).
    unfold read_from in Hrf. rewrite Hres in Hrf.
    destruct (fst rc) as [e | [j | body | t]]; try discriminate;
      try contradiction.
    destruct (read_csv W body) as [t |] eqn:Ecsv; [| discriminate].
    injection Hrf as ->.
    exists t, body, before, params. repeat split; try assumption.
    intros t' Ht'. congruence. }
  cbv zeta. apply Hr. rewrite !hscsearch_run. unfold search_run.
  change (str_in "table" hsc_formats) with true.
  change (str_in "csv" hsc_formats) with true.
  change (hsc_rformat "table") with "csv".
  change (hsc_rformat "csv") with "csv". cbn [negb].
  destruct (truthy kw); cbn [negb];
    [| split; [reflexivity | split; [reflexivity | discriminate]]].
  destruct (cat2url table release magtype baseurl) as [e | base] eqn:E;
    [split; [reflexivity | split; [reflexivity | discriminate]] |].
  apply cat2url_passed in E. destruct E as [_ ->].
  destruct (truthy (columns_given columns)).
  - unfold columns_run.
    destruct (cat2url table release magtype Defaults.baseurl);
      [split; [reflexivity | split; [reflexivity | discriminate]] |].
    cbv zeta.
    destruct (read_metadata W _);
      [split; [reflexivity | split; [reflexivity | discriminate]] |].
    destruct (lowered_names _);
      [split; [reflexivity | split; [reflexivity | discriminate]] |].
    destruct (truthy (not_found _ _));
      [split; [reflexivity | split; [reflexivity | discriminate]] |].
    match goal with
    | |- context [fetch_run W _ ?u "table" kw ?p s ?b] =>
        destruct (Hf u p b) as (H1 & H2 & H3)
    end.
    split; [assumption |]. split; [assumption |]. intros res _.
    rewrite H3. eauto.
  - match goal with
    | |- context [fetch_run W _ ?u "table" kw ?p s ?b] =>
        destruct (Hf u p b) as (H1 & H2 & H3)
    end.
    split; [assumption |]. split; [assumption |]. intros res _.
    rewrite H3. eauto.
Qed.

(** C7: the cone search at 187.706, 12.391 with radius 500/3600, table
    summary and release v3, magnitude type, format and columns by default,
    sends one request: to base/v3/summary/magaper2.csv, with the parameters
    ra = 187.706, dec = 12.391 and radius = 500/3600, the degrees that read
    0.1389 when rounded to four decimals. *)
Theorem cone_search_example (baseurl : string) (s : State) :
  let r := hsccone W (PyFloat 187.706) (PyFloat 12.391) (PyFloat (500 # 3600))
             "summary" "v3" Defaults.format Defaults.magtype Defaults.columns
             baseurl Defaults.verbose [] s in
  log (snd r)
  = (log s ++ [GET (baseurl ++ "/v3/summary/magaper2.csv")
                   (Some [("ra", PyFloat 187.706); ("dec", PyFloat 12.391);
                          ("radius", PyFloat (500 # 3600))])])%list
  /\ (0.13885 <= 500 # 3600 < 0.13895)%Q.
Proof.
  cbv zeta. rewrite hsccone_run, hscsearch_run. split.
  - unfold search_run, fetch_run. cbn.
    now rewrite append_assoc.
  - split; [discriminate | reflexivity].
Qed.


End Claims.

(** * The claims on concrete calls *)

Lemma demo_legal : legal "v3" "summary" "magaper2".
Proof. split; [right; split; auto | auto]. Qed.

Lemma demo_illegal : ~ legal "v2" "hcv" "magaper2".
Proof. intros [[[_ [H | H]] | [H _]] _]; discriminate. Qed.

Lemma demo_unknown (col : string) :
  (forallb (fun n => negb (String.eqb (lower n) (lower (strip col))))
           Demo.names = true) ->
  ~ column_known Demo.names col.
Proof.
  intros H (n & Hn & E). rewrite forallb_forall in H.
  specialize (H n Hn). rewrite E, String.eqb_refl in H. discriminate.
Qed.

Lemma demo_known (col : string) :
  (existsb (fun n => String.eqb (lower n) (lower (strip col))) Demo.names
   = true) ->
  column_known Demo.names col.
Proof.
  intros H. apply existsb_exists in H. destruct H as (n & Hn & E).
  apply String.eqb_eq in E. now exists n.
Qed.

(** A call that raises the UnknownColumn [ValueError] after it has sent the
    request for the metadata: validation errors do not all precede the
    network. *)
Lemma unknown_column_after_metadata_request :
  let r := hscsearch Demo.world "summary" "v3" "magaper2" "csv"
             (Some ["bogus"]) hscapiurl false Demo.filters Demo.empty in
  fst r = inl (ValueError "Some columns not found in table: bogus")
  /\ log (snd r)
     = [GET "https://catalogs.mast.stsci.edu/api/v0.1/hsc/v3/summary/magaper2/metadata"
            None]
  /\ log (snd r) <> log Demo.empty.
Proof.
  vm_compute. split; [reflexivity | split; [reflexivity | discriminate]].
Qed.

Lemma validation_errors_and_requests_witness :
  (early_error (ValueError "Some columns not found in table: bogus")
   /\ log (snd (hscsearch Demo.world "summary" "v3" "magaper2" "csv"
                  (Some ["bogus"]) hscapiurl false Demo.filters Demo.empty))
      = log Demo.empty)
  \/ (exists badcols,
        badcols <> []
        /\ ValueError "Some columns not found in table: bogus"
           = UnknownColumn badcols
        /\ ~ early_error (ValueError "Some columns not found in table: bogus")
        /\ log (snd (hscsearch Demo.world "summary" "v3" "magaper2" "csv"
                       (Some ["bogus"]) hscapiurl false Demo.filters
                       Demo.empty))
           = (log Demo.empty
              ++ [metadata_request "summary" "v3" "magaper2"])%list).
Proof.
  apply (proj1 (validation_errors_and_requests Demo.world "summary" "v3"
                  "magaper2" "csv" (Some ["bogus"]) hscapiurl false
                  Demo.filters Demo.empty
                  "Some columns not found in table: bogus")).
  vm_compute. reflexivity.
Defined.

Lemma unknown_columns_reported_witness :
  fst (hscsearch Demo.world "summary" "v3" "magaper2" "csv"
         (Some ["MatchId"; "bogus"; " matchra "; "x y"]) hscapiurl false
         Demo.filters Demo.empty)
  = inl (ValueError "Some columns not found in table: bogus, x y")
  /\ ((forall msg,
         fst (hscsearch Demo.world "summary" "v3" "magaper2" "csv"
                (Some ["MatchId"]) hscapiurl false Demo.filters Demo.empty)
         <> inl (ValueError msg))
      /\ exists params,
           log (snd (hscsearch Demo.world "summary" "v3" "magaper2" "csv"
                       (Some ["MatchId"]) hscapiurl false Demo.filters
                       Demo.empty))
           = (log Demo.empty
              ++ [metadata_request "summary" "v3" "magaper2";
                  GET (base_path hscapiurl "v3" "summary" "magaper2" ++ "."
                       ++ hsc_rformat "csv")
                      (Some params)])%list).
Proof.
  split.
  - assert (Hbad : exists col,
               In col ["MatchId"; "bogus"; " matchra "; "x y"]
               /\ ~ column_known Demo.names col).
    { exists "bogus". split; [simpl; auto | apply demo_unknown; reflexivity]. }
    destruct (proj1 (unknown_columns_reported Demo.world "summary" "v3"
                       "magaper2" "csv"
                       ["MatchId"; "bogus"; " matchra "; "x y"]
                       hscapiurl false Demo.filters Demo.empty Demo.rows
                       Demo.names
                       ltac:(discriminate) ltac:(simpl; auto) demo_legal
                       ltac:(discriminate) ltac:(reflexivity)
                       ltac:(reflexivity) ltac:(reflexivity)
                       ltac:(reflexivity))
                Hbad)
      as (bad & H & _ & -> & _).
    exact H.
  - apply (proj2 (unknown_columns_reported Demo.world "summary" "v3"
                    "magaper2" "csv" ["MatchId"] hscapiurl false Demo.filters
                    Demo.empty Demo.rows Demo.names
                    ltac:(discriminate) ltac:(simpl; auto) demo_legal
                    ltac:(discriminate) ltac:(reflexivity)
                    ltac:(reflexivity) ltac:(reflexivity)
                    ltac:(reflexivity))).
    intros col [<- | []]. apply demo_known. reflexivity.
Defined.

Lemma table_format_reads_csv_witness :
  exists t body before params,
    ResTable Demo.world ["1,187.7,12.3"; "2,187.8,12.4"]
    = ResTable Demo.world t
    /\ log (snd (hscsearch Demo.world "summary" "v3" "magaper2" "table" None
                   hscapiurl false Demo.filters Demo.empty))
       = (before ++ [GET (base_path hscapiurl "v3" "summary" "magaper2"
                          ++ ".csv") (Some params)])%list
    /\ fst (hscsearch Demo.world "summary" "v3" "magaper2" "csv" None
              hscapiurl false Demo.filters Demo.empty)
       = inr (ResText Demo.world body)
    /\ read_csv Demo.world body = Some t
    /\ (forall t', read_csv Demo.world body = Some t' ->
                   table_len Demo.world t = table_len Demo.world t').
Proof.
  apply (proj2 (proj2 (table_format_reads_csv Demo.world "summary" "v3"
                         "magaper2" None hscapiurl false Demo.filters
                         Demo.empty))).
  vm_compute. reflexivity.
Defined.

(** The format table is in the enumeration, yet [hcvsearch] rejects it as
    an unsupported format. *)
Lemma hcvsearch_rejects_table :
  In "table" ["csv"; "votable"; "json"; "table"]
  /\ fst (hcvsearch Demo.world "hcvsummary" "v3" "magaper2" "table" None
            hscapiurl false Demo.filters Demo.empty)
     = inl (ValueError "Bad value for format").
Proof. split; [simpl; auto | vm_compute; reflexivity]. Qed.

Lemma format_check_witness :
  (fst (hscsearch Demo.world "summary" "v3" "magaper2" "xml" None hscapiurl
          false Demo.filters Demo.empty) = inl UnsupportedFormat
   /\ log (snd (hscsearch Demo.world "summary" "v3" "magaper2" "xml" None
                  hscapiurl false Demo.filters Demo.empty)) = log Demo.empty)
  /\ fst (hcvsearch Demo.world "hcvsummary" "v3" "magaper2" "votable" None
            hscapiurl false Demo.filters Demo.empty) <> inl UnsupportedFormat.
Proof.
  split.
  - apply (proj1 (format_check Demo.world "summary" "v3" "magaper2" "xml" None
                    hscapiurl false Demo.filters Demo.empty
                    ltac:(discriminate))).
    simpl. intros [H | [H | [H | [H | []]]]]; discriminate.
  - apply (proj2 (proj2 (proj2
             (format_check Demo.world "hcvsummary" "v3" "magaper2" "votable"
                None hscapiurl false Demo.filters Demo.empty
                ltac:(discriminate))))).
    simpl. auto.
Defined.

Lemma validation_order_witness :
  fst (hscsearch Demo.world "hcv" "v2" "magaper2" "xml" (Some ["bogus"])
         hscapiurl false [] Demo.empty) = inl MissingParameters
  /\ fst (hscsearch Demo.world "hcv" "v2" "magaper2" "xml" (Some ["bogus"])
            hscapiurl false Demo.filters Demo.empty) = inl UnsupportedFormat
  /\ (exists e,
        fst (hscsearch Demo.world "hcv" "v2" "magaper2" "json"
               (Some ["bogus"]) hscapiurl false Demo.filters Demo.empty)
        = inl e /\ InvalidCombination e)
  /\ (exists badcols,
        badcols <> []
        /\ fst (hscsearch Demo.world "summary" "v3" "magaper2" "json"
                  (Some ["bogus"]) hscapiurl false Demo.filters Demo.empty)
           = inl (UnknownColumn badcols)).
Proof.
  split; [| split; [| split]].
  - apply (proj1 (validation_order Demo.world "hcv" "v2" "magaper2" "xml"
                    (Some ["bogus"]) hscapiurl false [] Demo.empty)).
    reflexivity.
  - apply (proj1 (proj2 (validation_order Demo.world "hcv" "v2" "magaper2"
                           "xml" (Some ["bogus"]) hscapiurl false
                           Demo.filters Demo.empty))).
    + discriminate.
    + simpl. intros [H | [H | [H | [H | []]]]]; discriminate.
  - apply (proj1 (proj2 (proj2 (validation_order Demo.world "hcv" "v2"
                                  "magaper2" "json" (Some ["bogus"])
                                  hscapiurl false Demo.filters Demo.empty)))).
    + discriminate.
    + simpl. auto.
    + exact demo_illegal.
  - apply (proj2 (proj2 (proj2 (validation_order Demo.world "summary" "v3"
                                  "magaper2" "json" (Some ["bogus"])
                                  hscapiurl false Demo.filters Demo.empty)))
             ltac:(discriminate) ltac:(simpl; auto) demo_legal
             ["bogus"] Demo.rows Demo.names eq_refl).
    + reflexivity.
    + reflexivity.
    + reflexivity.
    + reflexivity.
    + exists "bogus". split; [simpl; auto | apply demo_unknown; reflexivity].
Defined.



Lemma columns_sent_as_requested_witness :
  exists params,
    log (snd (hscsearch Demo.world "summary" "v3" "magaper2" "csv"
                (Some [" MatchId "; "MATCHRA"]) hscapiurl false Demo.filters
                Demo.empty))
    = (log Demo.empty
       ++ [metadata_request "summary" "v3" "magaper2";
           GET (base_path hscapiurl "v3" "summary" "magaper2" ++ "."
                ++ hsc_rformat "csv")
               (Some params)])%list
    /\ params
       = [("numimages.gte", PyInt 2); ("columns", PyStr "[ MatchId ,MATCHRA]")]
    /\ dict_get "columns" params = Some (PyStr "[ MatchId ,MATCHRA]")
    /\ (forall k, k <> "columns" ->
                  dict_get k params = dict_get k Demo.filters)
    /\ exists body,
         dict_get "columns" params = Some (PyStr ("[" ++ body ++ "]"))
         /\ split "," body = [" MatchId "; "MATCHRA"].
Proof.
  destruct (columns_sent_as_requested Demo.world "summary" "v3" "magaper2"
              "csv" [" MatchId "; "MATCHRA"] hscapiurl false Demo.filters
              Demo.empty Demo.rows Demo.names
              ltac:(discriminate) ltac:(simpl; auto) demo_legal
              ltac:(discriminate) ltac:(reflexivity) ltac:(reflexivity)
              ltac:(reflexivity) ltac:(reflexivity)
              ltac:(intros col [<- | [<- | []]]; apply demo_known;
                    reflexivity))
    as (params & Hlog & Hp & Hc & Hk & Hs).
  exists params. split; [exact Hlog |]. split; [exact Hp |].
  split; [exact Hc |]. split; [exact Hk |].
  apply Hs. intros col [<- | [<- | []]]; simpl; intuition discriminate.
Defined.

(** * Further properties of the helpers *)

(** ** Legal combinations and URLs *)

Lemma append_cancel_l (a x y : string) : a ++ x = a ++ y -> x = y.
Proof.
  induction a as [| c a IH]; simpl; [auto |]. intros [= H]. auto.
Qed.

(** X1: unless the table is summary, the magnitude type plays no part in
    [cat2url]: it is neither checked nor used, so any value at all gives
    the same result. *)
Theorem cat2url_ignores_magtype (table release magtype magtype' baseurl : string) :
  table <> "summary" ->
  cat2url table release magtype baseurl
  = cat2url table release magtype' baseurl.
Proof.
  intros H. unfold cat2url, checklegal.
  destruct (String.eqb_spec table "summary") as [E | _]; [contradiction |].
  reflexivity.
Qed.

Lemma cat2url_ignores_magtype_witness :
  cat2url "hcv" "v3" "magaper2" hscapiurl
  = cat2url "hcv" "v3" "no such magnitude" hscapiurl.
Proof.
  apply (cat2url_ignores_magtype "hcv" "v3" "magaper2" "no such magnitude"
           hscapiurl).
  discriminate.
Defined.

(** X2: whatever release v2 accepts, release v3 accepts too, under the
    same path but for the release. *)
Theorem v2_tables_in_v3 (table magtype baseurl url : string) :
  cat2url table "v2" magtype baseurl = inr url ->
  cat2url table "v3" magtype baseurl
  = inr (base_path baseurl "v3" table magtype)
  /\ url = base_path baseurl "v2" table magtype.
Proof.
  intros H. apply cat2url_passed in H. destruct H as [[Ht Hm] ->].
  split; [| reflexivity]. apply cat2url_legal. split; [| assumption].
  destruct Ht as [[_ H] | [H _]]; [| discriminate].
  right. split; [reflexivity |]. tauto.
Qed.

Lemma v2_tables_in_v3_witness :
  cat2url "detailed" "v3" "magaper2" hscapiurl
  = inr (base_path hscapiurl "v3" "detailed" "magaper2")
  /\ "https://catalogs.mast.stsci.edu/api/v0.1/hsc/v2/detailed"
     = base_path hscapiurl "v2" "detailed" "magaper2".
Proof.
  apply (v2_tables_in_v3 "detailed" "magaper2" hscapiurl
           "https://catalogs.mast.stsci.edu/api/v0.1/hsc/v2/detailed").
  reflexivity.
Defined.

(** The legal combinations, the magnitude type kept for summary only. *)
Lemma legal_listed (release table magtype : string) :
  legal release table magtype ->
  In (release, table, if String.eqb table "summary" then magtype else "")
     [("v2", "summary", "magaper2"); ("v2", "summary", "magauto");
      ("v2", "detailed", "");
      ("v3", "summary", "magaper2"); ("v3", "summary", "magauto");
      ("v3", "detailed", ""); ("v3", "propermotions", "");
      ("v3", "sourcepositions", ""); ("v3", "hcvsummary", "");
      ("v3", "hcv", "")].
Proof.
  intros [Ht Hm].
  destruct Ht as [[-> [-> | ->]] | [-> [-> | [-> | [-> | [-> | [-> | ->]]]]]]];
    try (destruct (Hm eq_refl) as [-> | ->]); simpl; auto 12.
Qed.

Lemma base_path_suffix (baseurl release table magtype : string) :
  base_path baseurl release table magtype
  = baseurl ++ path_suffix (release, table,
                            if String.eqb table "summary" then magtype else "").
Proof.
  unfold path_suffix, base_path.
  destruct (String.eqb table "summary"); reflexivity.
Qed.

(** X3: two legal combinations never share a URL: equal results of
    [cat2url] under one base come from the same release and table, and for
    the summary table from the same magnitude type. *)
Theorem cat2url_injective
    (table release magtype table' release' magtype' baseurl url : string) :
  cat2url table release magtype baseurl = inr url ->
  cat2url table' release' magtype' baseurl = inr url ->
  release = release' /\ table = table'
  /\ (table = "summary" -> magtype = magtype').
Proof.
  intros H H'. apply cat2url_passed in H, H'.
  destruct H as [Hl ->], H' as [Hl' E].
  rewrite !base_path_suffix in E. apply append_cancel_l in E.
  apply legal_listed in Hl, Hl'.
  set (c := (release, table,
             if String.eqb table "summary" then magtype else "")) in *.
  set (c' := (release', table',
              if String.eqb table' "summary" then magtype' else "")) in *.
  assert (Hc : c = c').
  { clearbody c c'. simpl in Hl, Hl'.
    repeat (destruct Hl as [<- | Hl]; [| try contradiction]);
      repeat (destruct Hl' as [<- | Hl']; [| try contradiction]);
      first [reflexivity | discriminate E]. }
  subst c c'. injection Hc as -> -> Hm.
  split; [reflexivity |]. split; [reflexivity |].
  intros ->. now rewrite String.eqb_refl in Hm.
Qed.

Lemma cat2url_injective_witness :
  "v3" = "v3" /\ "hcv" = "hcv" /\ ("hcv" = "summary" -> "magaper2" = "magauto").
Proof.
  apply (cat2url_injective "hcv" "v3" "magaper2" "hcv" "v3" "magauto"
           hscapiurl "https://catalogs.mast.stsci.edu/api/v0.1/hsc/v3/hcv");
    reflexivity.
Defined.

(** X4: [checklegal] reports the first thing that is wrong, the release
    before the table and the table before the magnitude type, and its
    message names the values it accepts. *)
Theorem checklegal_messages (table release magtype : string) :
  (~ In release ["v2"; "v3"] ->
   checklegal table release magtype
   = inl (ValueError "Bad value for release (must be one of v2, v3)"))
  /\ (release = "v2" -> ~ In table ["summary"; "detailed"] ->
      checklegal table release magtype
      = inl (ValueError
               "Bad value for table (for v2 must be one of summary, detailed)"))
  /\ (release = "v3" ->
      ~ In table ["summary"; "detailed"; "propermotions"; "sourcepositions";
                  "hcvsummary"; "hcv"] ->
      checklegal table release magtype
      = inl (ValueError
               "Bad value for table (for v3 must be one of summary, detailed, propermotions, sourcepositions, hcvsummary, hcv)"))
  /\ (In release ["v2"; "v3"] -> table = "summary" ->
      ~ In magtype ["magaper2"; "magauto"] ->
      checklegal table release magtype
      = inl (ValueError
               "Bad value for magtype (must be one of magaper2, magauto)")).
Proof.
  split; [| split; [| split]].
  - intros H. apply str_in_not_In in H. unfold checklegal.
    change ["v2"; "v3"] with releaselist in H. now rewrite H.
  - intros -> H. apply str_in_not_In in H. unfold checklegal.
    change (str_in "v2" releaselist) with true. cbn [negb].
    change (tablelist "v2") with ["summary"; "detailed"]. now rewrite H.
  - intros -> H. apply str_in_not_In in H. unfold checklegal.
    change (str_in "v3" releaselist) with true. cbn [negb].
    change (tablelist "v3")
      with ["summary"; "detailed"; "propermotions"; "sourcepositions";
            "hcvsummary"; "hcv"].
    now rewrite H.
  - intros Hr -> H. apply str_in_not_In in H. unfold checklegal.
    apply str_in_In in Hr. change ["v2"; "v3"] with releaselist in Hr.
    rewrite Hr. cbn [negb].
    assert (Ht : str_in "summary" (tablelist release) = true).
    { unfold tablelist. now destruct (String.eqb release "v2"). }
    rewrite Ht. cbn [negb]. rewrite String.eqb_refl.
    change ["magaper2"; "magauto"] with magtypelist in H. now rewrite H.
Qed.

Lemma checklegal_messages_witness :
  checklegal "nosuchtable" "v1" "nosuchmagnitude"
  = inl (ValueError "Bad value for release (must be one of v2, v3)")
  /\ checklegal "hcv" "v2" "nosuchmagnitude"
     = inl (ValueError
              "Bad value for table (for v2 must be one of summary, detailed)")
  /\ checklegal "summary" "v2" "nosuchmagnitude"
     = inl (ValueError
              "Bad value for magtype (must be one of magaper2, magauto)").
Proof.
  split; [| split].
  - apply (proj1 (checklegal_messages "nosuchtable" "v1" "nosuchmagnitude")).
    simpl. intros [H | [H | []]]; discriminate.
  - apply (proj1 (proj2 (checklegal_messages "hcv" "v2" "nosuchmagnitude")));
      [reflexivity |].
    simpl. intros [H | [H | []]]; discriminate.
  - apply (proj2 (proj2 (proj2
             (checklegal_messages "summary" "v2" "nosuchmagnitude"))));
      [simpl; auto | reflexivity |].
    simpl. intros [H | [H | []]]; discriminate.
Defined.

(** ** The metadata functions *)

Lemma row_of_descriptor (x : json) (r : meta_row) :
  row_of x = inr r <-> descriptor x r.
Proof.
  unfold row_of, getitem, descriptor. split.
  - destruct x as [| | | | | m]; try discriminate.
    destruct (members_get "name" m) as [n |] eqn:En; [| discriminate].
    destruct (members_get "type" m) as [t |] eqn:Et; [| discriminate].
    destruct (members_get "description" m) as [d |] eqn:Ed; [| discriminate].
    intros [= <-]. exists m. cbn. auto.
  - intros (m & -> & Hn & Ht & Hd). rewrite Hn, Ht, Hd. now destruct r.
Qed.

Lemma map_raises_rows (xs : list json) (rows : list meta_row) :
  map_raises row_of xs = inr rows <-> Forall2 descriptor xs rows.
Proof.
  revert rows. induction xs as [| x xs IH]; intros rows; simpl.
  - split.
    + intros [= <-]. constructor.
    + intros H. inversion H. reflexivity.
  - split.
    + destruct (row_of x) as [e | r] eqn:E; [discriminate |].
      destruct (map_raises row_of xs) as [e | rs] eqn:E'; [discriminate |].
      intros [= <-]. constructor; [now apply row_of_descriptor |].
      now apply IH.
    + intros H. inversion H as [| x' r xs' rs Hd Hrest]; subst.
      apply row_of_descriptor in Hd. apply IH in Hrest.
      now rewrite Hd, Hrest.
Qed.

(** The first element that is no descriptor decides the outcome. *)
Lemma map_raises_first_error (good : list json) (x : json) (rest : list json)
    (e : exn) :
  (forall g, In g good -> exists r, descriptor g r) ->
  row_of x = inl e ->
  map_raises row_of (good ++ x :: rest) = inl e.
Proof.
  intros Hg Hx. induction good as [| g good IH]; simpl.
  - now rewrite Hx.
  - destruct (Hg g (or_introl eq_refl)) as [r Hr].
    apply row_of_descriptor in Hr. rewrite Hr.
    rewrite IH; [reflexivity |]. intros g' Hin. apply Hg. now right.
Qed.

Section MetadataFacts.

Context (W : World).

(** X5: on a legal combination the metadata functions send exactly one
    request, a GET without parameters of the base URL followed by
    /metadata, whatever the answer is, and leave the dictionaries alone;
    on an illegal one they raise the InvalidCombination error and send
    nothing. *)
Theorem metadata_one_request (table release magtype baseurl : string)
    (s : State) :
  (legal release table magtype ->
   snd (hscmetadata W table release magtype baseurl s)
   = mkState (heap s)
       (log s ++ [GET (base_path baseurl release table magtype ++ "/metadata")
                      None])%list
   /\ hcvmetadata W table release magtype baseurl s
      = hscmetadata W table release magtype baseurl s)
  /\ (~ legal release table magtype ->
      exists e,
        InvalidCombination e
        /\ hscmetadata W table release magtype baseurl s = (inl e, s)
        /\ hcvmetadata W table release magtype baseurl s = (inl e, s)).
Proof.
  unfold hscmetadata, hcvmetadata. rewrite metadata_run. split.
  - intros Hl. now rewrite (cat2url_legal _ _ _ _ Hl).
  - intros Hl.
    destruct (cat2url_illegal table release magtype baseurl Hl)
      as (e & E & He).
    exists e. now rewrite E.
Qed.

(** What [hscmetadata] returns on a legal combination. *)
Lemma hscmetadata_result (table release magtype baseurl : string) (s : State) :
  legal release table magtype ->
  fst (hscmetadata W table release magtype baseurl s)
  = read_metadata W
      (server W (log s)
         (GET (base_path baseurl release table magtype ++ "/metadata") None)).
Proof.
  intros Hl. unfold hscmetadata. rewrite metadata_run.
  now rewrite (cat2url_legal _ _ _ _ Hl).
Qed.

Lemma http_failed_status (r : Response) :
  http_failed r = true <-> (400 <= status_code r < 600)%Z.
Proof. unfold http_failed. lia. Qed.

Lemma map_raises_inl {A B : Type} (P : exn -> Prop) (f : A -> raises B)
    (l : list A) (e : exn) :
  (forall x e', f x = inl e' -> P e') -> map_raises f l = inl e -> P e.
Proof.
  intros Hf. induction l as [| x l IH]; simpl; [discriminate |].
  destruct (f x) as [e' | y] eqn:E.
  - intros [= <-]. now apply (Hf x).
  - destruct (map_raises f l); [| discriminate].
    intros [= <-]. now apply IH.
Qed.

Lemma row_of_raises (x : json) (e : exn) :
  row_of x = inl e -> e = TypeError \/ exists k, e = KeyError k.
Proof.
  unfold row_of, getitem. destruct x as [| | | | | m];
    try (intros [= <-]; now left).
  destruct (members_get "name" m); [| intros [= <-]; right; eauto].
  destruct (members_get "type" m); [| intros [= <-]; right; eauto].
  destruct (members_get "description" m); [discriminate |].
  intros [= <-]. right; eauto.
Qed.

Lemma read_metadata_http (r : Response) (st : Z) :
  read_metadata W r = inl (HTTPError st) ->
  st = status_code r /\ (400 <= st < 600)%Z.
Proof.
  unfold read_metadata. destruct (http_failed r) eqn:E.
  - intros [= <-]. split; [reflexivity | now apply http_failed_status].
  - destruct (json_loads W (text r)) as [v |]; [| discriminate].
    destruct (py_iter v) as [e | xs] eqn:Ei.
    + destruct v; simpl in Ei; try discriminate; congruence.
    + intros H.
      apply (map_raises_inl
               (fun e => e = TypeError \/ exists k, e = KeyError k)) in H;
        [| apply row_of_raises].
      destruct H as [H | [k H]]; discriminate.
Qed.

(** X6: on a legal combination, a metadata function raises [HTTPError]
    exactly when the status of the answer lies in 400..599, and the error
    carries that status; the body of the answer plays no part. *)
Theorem metadata_http_error (table release magtype baseurl : string)
    (s : State) (st : Z) :
  legal release table magtype ->
  let answer :=
    server W (log s)
      (GET (base_path baseurl release table magtype ++ "/metadata") None) in
  fst (hscmetadata W table release magtype baseurl s) = inl (HTTPError st)
  <-> (st = status_code answer /\ (400 <= st < 600)%Z).
Proof.
  intros Hl. cbv zeta. rewrite hscmetadata_result by assumption. split.
  - apply read_metadata_http.
  - intros [-> H]. apply http_failed_status in H.
    unfold read_metadata. now rewrite H.
Qed.

(** X7: on a legal combination, when the answer is no failure and decodes
    to a non-empty JSON array in which every name, type and description is
    a string of printable ASCII (which the table keeps as it is), a
    metadata function returns the rows [rows] exactly when the array holds,
    in this order, one object per row with the row's name, type and
    description; other members of the objects are ignored. *)
Theorem metadata_rows (table release magtype baseurl : string) (s : State)
    (xs : list json) (rows : list meta_row) :
  legal release table magtype ->
  let answer :=
    server W (log s)
      (GET (base_path baseurl release table magtype ++ "/metadata") None) in
  ~ (400 <= status_code answer < 600)%Z ->
  json_loads W (text answer) = Some (JArr xs) ->
  xs <> [] -> text_descriptors xs ->
  fst (hscmetadata W table release magtype baseurl s) = inr rows
  <-> Forall2 descriptor xs rows.
Proof.
  intros Hl. cbv zeta. intros Hst Hj _ _.
  rewrite hscmetadata_result by assumption. unfold read_metadata.
  destruct (http_failed _) eqn:E;
    [apply http_failed_status in E; contradiction |].
  rewrite Hj. cbn [py_iter]. apply map_raises_rows.
Qed.

(** X8: on a legal combination, when the answer is no failure and decodes
    to a JSON array, the first element that is not an object with the
    three members decides the error: [TypeError] if it is no object,
    otherwise [KeyError] for the first of name, type, description that it
    lacks. *)
Theorem metadata_bad_descriptor (table release magtype baseurl : string)
    (s : State) (good : list json) (x : json) (rest : list json) :
  legal release table magtype ->
  let answer :=
    server W (log s)
      (GET (base_path baseurl release table magtype ++ "/metadata") None) in
  ~ (400 <= status_code answer < 600)%Z ->
  json_loads W (text answer) = Some (JArr (good ++ x :: rest)%list) ->
  (forall g, In g good -> exists r, descriptor g r) ->
  let result := fst (hscmetadata W table release magtype baseurl s) in
  ((forall members, x <> JObj members) -> result = inl TypeError)
  /\ (forall members,
        x = JObj members ->
        (members_get "name" members = None ->
         result = inl (KeyError "name"))
        /\ (members_get "name" members <> None ->
            members_get "type" members = None ->
            result = inl (KeyError "type"))
        /\ (members_get "name" members <> None ->
            members_get "type" members <> None ->
            members_get "description" members = None ->
            result = inl (KeyError "description"))).
Proof.
  intros Hl. cbv zeta. intros Hst Hj Hg.
  rewrite hscmetadata_result by assumption. unfold read_metadata.
  destruct (http_failed _) eqn:E;
    [apply http_failed_status in E; contradiction |].
  rewrite Hj. cbn [py_iter].
  split; [| intros m ->; split; [| split]].
  - intros Hx. apply map_raises_first_error; [assumption |].
    unfold row_of, getitem. destruct x; try reflexivity.
    now destruct (Hx members).
  - intros Hn. apply map_raises_first_error; [assumption |].
    unfold row_of, getitem. now rewrite Hn.
  - intros Hn Ht. apply map_raises_first_error; [assumption |].
    unfold row_of, getitem.
    destruct (members_get "name" m); [| contradiction]. now rewrite Ht.
  - intros Hn Ht Hd. apply map_raises_first_error; [assumption |].
    unfold row_of, getitem.
    destruct (members_get "name" m); [| contradiction].
    destruct (members_get "type" m); [| contradiction]. now rewrite Hd.
Qed.

(** X9: an answer that is no failure but is not JSON raises
    [JSONDecodeError]; JSON that is a number, a boolean or null raises
    [TypeError], as it cannot be iterated. *)
Theorem metadata_not_an_array (table release magtype baseurl : string)
    (s : State) :
  legal release table magtype ->
  let answer :=
    server W (log s)
      (GET (base_path baseurl release table magtype ++ "/metadata") None) in
  ~ (400 <= status_code answer < 600)%Z ->
  let result := fst (hscmetadata W table release magtype baseurl s) in
  (json_loads W (text answer) = None -> result = inl JSONDecodeError)
  /\ (forall v,
        json_loads W (text answer) = Some v ->
        v = JNull \/ (exists b, v = JBool b) \/ (exists q, v = JNum q) ->
        result = inl TypeError).
Proof.
  intros Hl. cbv zeta. intros Hst.
  rewrite hscmetadata_result by assumption. unfold read_metadata.
  destruct (http_failed _) eqn:E;
    [apply http_failed_status in E; contradiction |].
  split.
  - intros ->. reflexivity.
  - intros v -> [-> | [[b ->] | [q ->]]]; reflexivity.
Qed.

End MetadataFacts.

Lemma metadata_one_request_witness :
  (snd (hscmetadata Demo.world "hcv" "v3" "magaper2" hscapiurl Demo.busy)
   = mkState (heap Demo.busy)
       (log Demo.busy
        ++ [GET (base_path hscapiurl "v3" "hcv" "magaper2" ++ "/metadata")
                None])%list
   /\ hcvmetadata Demo.world "hcv" "v3" "magaper2" hscapiurl Demo.busy
      = hscmetadata Demo.world "hcv" "v3" "magaper2" hscapiurl Demo.busy)
  /\ exists e,
       InvalidCombination e
       /\ hscmetadata Demo.world "hcv" "v2" "magaper2" hscapiurl Demo.busy
          = (inl e, Demo.busy)
       /\ hcvmetadata Demo.world "hcv" "v2" "magaper2" hscapiurl Demo.busy
          = (inl e, Demo.busy).
Proof.
  split.
  - apply (proj1 (metadata_one_request Demo.world "hcv" "v3" "magaper2"
                    hscapiurl Demo.busy)).
    split; [right; split; auto 10 | discriminate].
  - apply (proj2 (metadata_one_request Demo.world "hcv" "v2" "magaper2"
                    hscapiurl Demo.busy)).
    exact demo_illegal.
Defined.

(** ** The requests of a search *)

Lemma lowered_names_raises (tab : list meta_row) (e : exn) :
  lowered_names tab = inl e -> e = AttributeError.
Proof.
  apply (map_raises_inl (fun e => e = AttributeError)).
  intros row e'. unfold py_lower.
  destruct (meta_name row); intros [= <-]; reflexivity.
Qed.

Section SearchShape.

Context (W : World).
Context (formats : list string) (rformat : string -> string)
        (decode : string -> Response -> raises (result W)).

(** The three ways a search can go: it stops before any request, it stops
    after the metadata request, or it sends the search request. *)
Lemma search_run_shape table release magtype format columns baseurl kw s :
  let r := search_run W formats rformat decode table release magtype format
             columns baseurl kw s in
  let mrq := metadata_request table release magtype in
  let url := base_path baseurl release table magtype ++ "." ++ rformat format in
  (snd r = entered kw s /\ exists msg, fst r = inl (ValueError msg))
  \/ (kw <> [] /\ In format formats /\ legal release table magtype
      /\ columns_given columns <> []
      /\ snd r = sent mrq (entered kw s)
      /\ exists e,
           fst r = inl e
           /\ (read_metadata W (server W (log s) mrq) = inl e
               \/ (exists tab,
                     read_metadata W (server W (log s) mrq) = inr tab
                     /\ lowered_names tab = inl e)
               \/ (exists badcols,
                     badcols <> [] /\ e = UnknownColumn badcols)))
  \/ (kw <> [] /\ In format formats /\ legal release table magtype
      /\ exists before params,
           ((before = [] /\ params = kw /\ columns_given columns = [])
            \/ (before = [mrq]
                /\ params = dict_set "columns"
                              (columns_param (columns_given columns)) kw
                /\ columns_given columns <> []))
           /\ r = fetch_run W decode url format kw params s before).
Proof.
  cbv zeta. unfold search_run.
  destruct (truthy kw) eqn:Ekw; cbn [negb].
  2:{ left. cbn [fst snd]. unfold MissingParameters. eauto. }
  apply truthy_true in Ekw.
  destruct (str_in format formats) eqn:Ef; cbn [negb].
  2:{ left. cbn [fst snd]. unfold UnsupportedFormat. eauto. }
  apply str_in_In in Ef.
  destruct (cat2url table release magtype baseurl) as [e | base] eqn:E.
  { left. cbn [fst snd]. apply cat2url_error in E.
    destruct (InvalidCombination_ValueError e E) as [msg ->]. eauto. }
  apply cat2url_passed in E. destruct E as [Hl ->].
  destruct (truthy (columns_given columns)) eqn:Ec.
  2:{ apply truthy_false in Ec. right; right.
      split; [assumption |]. split; [assumption |]. split; [assumption |].
      exists [], kw. split; [left; auto | reflexivity]. }
  apply truthy_true in Ec. unfold columns_run.
  rewrite (cat2url_legal _ _ _ _ Hl). cbv zeta.
  fold (metadata_request table release magtype).
  destruct (read_metadata W _) as [e | tab] eqn:Em.
  { right; left. cbn [fst snd]. eauto 12. }
  destruct (lowered_names tab) as [e | dcols] eqn:En.
  { right; left. cbn [fst snd]. eauto 12. }
  destruct (truthy (not_found dcols (columns_given columns))) eqn:Eb.
  - apply truthy_true in Eb. right; left. cbn [fst snd].
    split; [assumption |]. split; [assumption |]. split; [assumption |].
    split; [assumption |]. split; [reflexivity |].
    eexists. split; [reflexivity |]. right; right. eauto.
  - right; right.
    split; [assumption |]. split; [assumption |]. split; [assumption |].
    eexists _, _. split; [right; eauto | reflexivity].
Qed.

(** The new requests: none, the metadata request, the search request, or
    both in this order. *)
Lemma search_run_sent table release magtype format columns baseurl kw s :
  let r := search_run W formats rformat decode table release magtype format
             columns baseurl kw s in
  exists sent_now,
    log (snd r) = (log s ++ sent_now)%list
    /\ length sent_now <= 2
    /\ (columns_given columns = [] -> length sent_now <= 1)
    /\ (forall rq, In rq sent_now ->
          rq = metadata_request table release magtype
          \/ rq = GET (base_path baseurl release table magtype ++ "."
                       ++ rformat format) (Some kw)
          \/ rq = GET (base_path baseurl release table magtype ++ "."
                       ++ rformat format)
                      (Some (dict_set "columns"
                               (columns_param (columns_given columns)) kw))).
Proof.
  cbv zeta.
  destruct (search_run_shape table release magtype format columns baseurl
              kw s)
    as [[Hs _] | [(_ & _ & _ & Hc & Hs & _)
                 | (_ & _ & _ & before & params & Hp & Hr)]].
  - exists []. rewrite Hs. cbn [entered log length]. rewrite app_nil_r.
    split; [reflexivity |]. split; [lia |]. split; [lia |]. intros rq [].
  - exists [metadata_request table release magtype]. rewrite Hs.
    cbn [sent entered log length].
    split; [reflexivity |]. split; [lia |]. split; [contradiction |].
    intros rq [<- | []]. now left.
  - rewrite Hr. unfold fetch_run. cbn [snd log].
    eexists. split; [reflexivity |].
    destruct Hp as [(-> & -> & Hc) | (-> & -> & Hc)]; cbn [app length].
    + split; [lia |]. split; [lia |]. intros rq [<- | []]. auto.
    + split; [lia |]. split; [contradiction |].
      intros rq [<- | [<- | []]]; auto.
Qed.

End SearchShape.

Section SearchExt.

Context (W : World).
Context (formats formats' : list string) (rformat rformat' : string -> string)
        (decode decode' : string -> Response -> raises (result W)).

(** Two searches that treat a format alike run alike on it. *)
Lemma search_run_ext table release magtype format columns baseurl kw s :
  str_in format formats = str_in format formats' ->
  rformat format = rformat' format ->
  (forall r, decode format r = decode' format r) ->
  search_run W formats rformat decode table release magtype format columns
    baseurl kw s
  = search_run W formats' rformat' decode' table release magtype format
      columns baseurl kw s.
Proof.
  intros Hf Hr Hd. unfold search_run, columns_run, fetch_run.
  rewrite Hf, Hr.
  destruct (truthy kw); [| reflexivity]. cbn [negb].
  destruct (str_in format formats'); [| reflexivity]. cbn [negb].
  destruct (cat2url table release magtype baseurl); [reflexivity |].
  cbv zeta.
  destruct (truthy (columns_given columns)); [| now rewrite Hd].
  destruct (cat2url table release magtype Defaults.baseurl); [reflexivity |].
  destruct (read_metadata W _); [reflexivity |].
  destruct (lowered_names _); [reflexivity |].
  destruct (truthy (not_found _ _)); [reflexivity |]. now rewrite Hd.
Qed.

End SearchExt.

Section DecodeFacts.

Context (W : World).

Lemma hsc_decode_http (format : string) (r : Response) (st : Z) :
  hsc_decode W format r = inl (HTTPError st) ->
  st = status_code r /\ (400 <= st < 600)%Z.
Proof.
  unfold hsc_decode. destruct (http_failed r) eqn:E.
  - intros [= <-]. split; [reflexivity | now apply http_failed_status].
  - destruct (String.eqb format "json").
    + destruct (json_loads W (text r)); discriminate.
    + destruct (String.eqb format "table"); [| discriminate].
      destruct (read_csv W (text r)); discriminate.
Qed.

Lemma hcv_decode_http (format : string) (r : Response) (st : Z) :
  hcv_decode W format r = inl (HTTPError st) ->
  st = status_code r /\ (400 <= st < 600)%Z.
Proof.
  unfold hcv_decode. destruct (http_failed r) eqn:E.
  - intros [= <-]. split; [reflexivity | now apply http_failed_status].
  - destruct (String.eqb format "json"); [| discriminate].
    destruct (json_loads W (text r)); discriminate.
Qed.

Lemma decode_without_table (format : string) (r : Response) :
  format <> "table" -> hsc_decode W format r = hcv_decode W format r.
Proof.
  intros H. unfold hsc_decode, hcv_decode.
  destruct (String.eqb_spec format "table"); [contradiction | reflexivity].
Qed.

End DecodeFacts.

Section SearchHTTP.

Context (W : World).
Context (formats : list string) (rformat : string -> string)
        (decode : string -> Response -> raises (result W)).
Hypothesis decode_http :
  forall format r st,
    decode format r = inl (HTTPError st) ->
    st = status_code r /\ (400 <= st < 600)%Z.

Lemma search_run_http table release magtype format columns baseurl kw s st :
  let r := search_run W formats rformat decode table release magtype format
             columns baseurl kw s in
  fst r = inl (HTTPError st) ->
  (400 <= st < 600)%Z
  /\ exists before rq,
       log (snd r) = (before ++ [rq])%list
       /\ st = status_code (server W before rq).
Proof.
  cbv zeta. intros H.
  destruct (search_run_shape W formats rformat decode table release magtype
              format columns baseurl kw s)
    as [[_ [msg Hm]] | [(_ & _ & _ & _ & Hs & e & He & Hc)
                       | (_ & _ & _ & before & params & _ & Hr)]].
  - rewrite Hm in H. discriminate.
  - rewrite He in H. injection H as ->.
    destruct Hc as [Hc | [(tab & _ & Hc) | (bad & _ & Hc)]].
    + apply read_metadata_http in Hc. destruct Hc as [-> Hst].
      split; [assumption |]. rewrite Hs.
      exists (log s), (metadata_request table release magtype).
      split; reflexivity.
    + apply lowered_names_raises in Hc. discriminate.
    + discriminate.
  - rewrite Hr in H |- *. unfold fetch_run in *. cbn [fst snd log] in *.
    apply decode_http in H. destruct H as [-> Hst].
    split; [assumption |]. rewrite app_assoc. eauto.
Qed.

End SearchHTTP.

(** ** Searches, request by request *)

Section SearchExtras.

Context (W : World).

(** X10: a search sends at most two requests, and at most one when no
    columns are requested; each of them is either the metadata request or
    a GET of the search URL whose parameters agree with the filters on
    every name but columns.  Earlier requests stay in the log. *)
Theorem search_sends_at_most_two (table release magtype format : string)
    (columns : option (list string)) (baseurl : string) (verbose : bool)
    (kw : dict) (s : State) :
  let bounded (r : raises (result W) * State) (url : string) :=
    exists sent_now,
      log (snd r) = (log s ++ sent_now)%list
      /\ length sent_now <= 2
      /\ (columns = None \/ columns = Some [] -> length sent_now <= 1)
      /\ (forall rq, In rq sent_now ->
            rq = metadata_request table release magtype
            \/ exists params,
                 rq = GET url (Some params)
                 /\ forall k, k <> "columns" ->
                              dict_get k params = dict_get k kw) in
  bounded (hscsearch W table release magtype format columns baseurl verbose
             kw s)
          (base_path baseurl release table magtype ++ "."
           ++ (if String.eqb format "table" then "csv" else format))
  /\ bounded (hcvsearch W table release magtype format columns baseurl
                verbose kw s)
             (base_path baseurl release table magtype ++ "." ++ format).
Proof.
  cbv zeta. rewrite hscsearch_run, hcvsearch_run.
  split.
  - destruct (search_run_sent W hsc_formats hsc_rformat (hsc_decode W) table
                release magtype format columns baseurl kw s)
      as (sent_now & Hlog & H2 & H1 & Hrq).
    exists sent_now. split; [assumption |]. split; [assumption |]. split.
    + intros [-> | ->]; now apply H1.
    + intros rq Hin.
      destruct (Hrq rq Hin) as [-> | [-> | ->]]; [now left | right..].
      * exists kw. split; [reflexivity | auto].
      * eexists. split; [reflexivity |].
        intros k Hk. apply dict_get_set_ne. congruence.
  - destruct (search_run_sent W hcv_formats hcv_rformat (hcv_decode W) table
                release magtype format columns baseurl kw s)
      as (sent_now & Hlog & H2 & H1 & Hrq).
    exists sent_now. split; [assumption |]. split; [assumption |]. split.
    + intros [-> | ->]; now apply H1.
    + intros rq Hin.
      destruct (Hrq rq Hin) as [-> | [-> | ->]]; [now left | right..].
      * exists kw. split; [reflexivity | auto].
      * eexists. split; [reflexivity |].
        intros k Hk. apply dict_get_set_ne. congruence.
Qed.

(** X11: the columns of a search are validated against the metadata of the
    default API: whatever base URL the search is given, a search that gets
    as far as its columns first requests base/release/table/metadata under
    [hscapiurl]. *)
Theorem validation_uses_default_api (table release magtype format : string)
    (cols : list string) (baseurl : string) (verbose : bool) (kw : dict)
    (s : State) :
  kw <> [] -> legal release table magtype -> cols <> [] ->
  (In format ["csv"; "votable"; "json"; "table"] ->
   exists rest,
     log (snd (hscsearch W table release magtype format (Some cols) baseurl
                 verbose kw s))
     = (log s
        ++ GET (base_path hscapiurl release table magtype ++ "/metadata") None
           :: rest)%list)
  /\ (In format ["csv"; "votable"; "json"] ->
      exists rest,
        log (snd (hcvsearch W table release magtype format (Some cols)
                    baseurl verbose kw s))
        = (log s
           ++ GET (base_path hscapiurl release table magtype ++ "/metadata")
                  None
              :: rest)%list).
Proof.
  intros Hkw Hl Hc.
  assert (gen : forall formats rformat decode,
    In format formats ->
    exists rest,
      log (snd (search_run W formats rformat decode table release magtype
                  format (Some cols) baseurl kw s))
      = (log s ++ metadata_request table release magtype :: rest)%list).
  { intros formats rformat decode Hf.
    destruct (search_run_shape W formats rformat decode table release
                magtype format (Some cols) baseurl kw s)
      as [[Hs [msg Hm]] | [(_ & _ & _ & _ & Hs & _)
                          | (_ & _ & _ & before & params & Hp & Hr)]].
    - exfalso.
      rewrite search_run_checked in Hm by assumption. cbv zeta in Hm.
      cbn [columns_given] in Hm. apply truthy_true in Hc. rewrite Hc in Hm.
      unfold columns_run in Hm.
      rewrite (cat2url_legal _ _ _ _ Hl) in Hm. cbv zeta in Hm.
      rewrite search_run_checked in Hs by assumption. cbv zeta in Hs.
      cbn [columns_given] in Hs. rewrite Hc in Hs.
      unfold columns_run in Hs.
      rewrite (cat2url_legal _ _ _ _ Hl) in Hs. cbv zeta in Hs.
      destruct (read_metadata W _);
        [apply (f_equal log) in Hs; cbn in Hs;
         apply (f_equal (@length _)) in Hs; rewrite length_app in Hs;
         cbn in Hs; lia |].
      destruct (lowered_names _);
        [apply (f_equal log) in Hs; cbn in Hs;
         apply (f_equal (@length _)) in Hs; rewrite length_app in Hs;
         cbn in Hs; lia |].
      destruct (truthy (not_found _ _));
        apply (f_equal log) in Hs; cbn in Hs;
        apply (f_equal (@length _)) in Hs; rewrite !length_app in Hs;
        cbn in Hs; lia.
    - rewrite Hs. exists []. reflexivity.
    - rewrite Hr. unfold fetch_run. cbn [snd log].
      destruct Hp as [(_ & _ & E) | (-> & _ & _)]; [now destruct Hc |].
      eexists. reflexivity. }
  unfold metadata_request in gen. split; intros Hf.
  - rewrite hscsearch_run. now apply gen.
  - rewrite hcvsearch_run. now apply gen.
Qed.

(** X12: when [hscsearch] returns a value, the filters were not empty, the
    format was supported and the combination legal; the last request sent
    is the search request, its answer was no failure, and the value is
    that answer decoded as JSON for json, read as a table for table, and
    its text as it is for csv and votable. *)
Theorem hscsearch_returns (table release magtype format : string)
    (columns : option (list string)) (baseurl : string) (verbose : bool)
    (kw : dict) (s : State) (res : result W) :
  let r := hscsearch W table release magtype format columns baseurl verbose
             kw s in
  fst r = inr res ->
  kw <> [] /\ In format ["csv"; "votable"; "json"; "table"]
  /\ legal release table magtype
  /\ exists before params,
       let rq := GET (base_path baseurl release table magtype ++ "."
                      ++ (if String.eqb format "table" then "csv"
                          else format))
                     (Some params) in
       let answer := server W before rq in
       log (snd r) = (before ++ [rq])%list
       /\ ~ (400 <= status_code answer < 600)%Z
       /\ (format = "json" ->
           exists j, json_loads W (text answer) = Some j
                     /\ res = ResJson W j)
       /\ (format = "table" ->
           exists t, read_csv W (text answer) = Some t
                     /\ res = ResTable W t)
       /\ (format <> "json" -> format <> "table" ->
           res = ResText W (text answer)).
Proof.
  cbv zeta. rewrite hscsearch_run. intros H.
  destruct (search_run_shape W hsc_formats hsc_rformat (hsc_decode W) table
              release magtype format columns baseurl kw s)
    as [[_ [msg Hm]] | [(_ & _ & _ & _ & _ & e & He & _)
                       | (Hkw & Hf & Hl & before & params & _ & Hr)]].
  - rewrite Hm in H. discriminate.
  - rewrite He in H. discriminate.
  - split; [assumption |]. split; [assumption |]. split; [assumption |].
    rewrite Hr in H |- *. unfold fetch_run in *. cbn [fst snd log] in *.
    exists (log s ++ before)%list, params.
    split; [now rewrite app_assoc |].
    unfold hsc_decode in H.
    destruct (http_failed _) eqn:E; [discriminate |].
    split.
    { intros Hst. apply http_failed_status in Hst.
      unfold hsc_rformat in E. congruence. }
    unfold hsc_rformat in H.
    destruct (String.eqb_spec format "json") as [Ej | Ej].
    + destruct (json_loads W _) as [j |] eqn:Ejs; [| discriminate].
      injection H as <-. split; [eauto |]. split; [| contradiction].
      intros ->. discriminate.
    + destruct (String.eqb_spec format "table") as [Et | Et].
      * destruct (read_csv W _) as [t |] eqn:Ecsv; [| discriminate].
        injection H as <-. split; [contradiction |]. split; [eauto |].
        contradiction.
      * injection H as <-. split; [contradiction |].
        split; [contradiction | reflexivity].
Qed.

(** X13: a search raises [HTTPError] only for a status in 400..599, the
    status of the answer to the last request it sent: nothing is sent
    after a failure. *)
Theorem http_error_is_last_answer (table release magtype format : string)
    (columns : option (list string)) (baseurl : string) (verbose : bool)
    (kw : dict) (s : State) (st : Z) :
  (fst (hscsearch W table release magtype format columns baseurl verbose kw s)
   = inl (HTTPError st) ->
   (400 <= st < 600)%Z
   /\ exists before rq,
        log (snd (hscsearch W table release magtype format columns baseurl
                    verbose kw s)) = (before ++ [rq])%list
        /\ st = status_code (server W before rq))
  /\ (fst (hcvsearch W table release magtype format columns baseurl verbose
             kw s)
      = inl (HTTPError st) ->
      (400 <= st < 600)%Z
      /\ exists before rq,
           log (snd (hcvsearch W table release magtype format columns baseurl
                       verbose kw s)) = (before ++ [rq])%list
           /\ st = status_code (server W before rq)).
Proof.
  rewrite hscsearch_run, hcvsearch_run. split.
  - apply search_run_http. apply hsc_decode_http.
  - apply search_run_http. apply hcv_decode_http.
Qed.

Lemma hcvsearch_is_hscsearch (table release magtype format : string)
    (columns : option (list string)) (baseurl : string) (verbose : bool)
    (kw : dict) (s : State) :
  format <> "table" ->
  hcvsearch W table release magtype format columns baseurl verbose kw s
  = hscsearch W table release magtype format columns baseurl verbose kw s.
Proof.
  intros Hf. rewrite hscsearch_run, hcvsearch_run.
  apply search_run_ext.
  - unfold str_in, hcv_formats, hsc_formats. cbn [existsb].
    destruct (String.eqb_spec format "table") as [E | _];
      [contradiction |].
    reflexivity.
  - unfold hsc_rformat, hcv_rformat.
    destruct (String.eqb_spec format "table"); [contradiction |].
    reflexivity.
  - intros r. symmetry. now apply decode_without_table.
Qed.

(** X14: but for the format table, [hcvsearch] and [hscsearch] are one
    function, and so are [hcvcone] and [hsccone]: same result, same
    requests, same store. *)
Theorem hcv_is_hsc_but_for_table (ra dec radius : pyval)
    (table release magtype format : string) (columns : option (list string))
    (baseurl : string) (verbose : bool) (kw : dict) (s : State) :
  format <> "table" ->
  hcvsearch W table release magtype format columns baseurl verbose kw s
  = hscsearch W table release magtype format columns baseurl verbose kw s
  /\ hcvcone W ra dec radius table release format magtype columns baseurl
       verbose kw s
     = hsccone W ra dec radius table release format magtype columns baseurl
         verbose kw s.
Proof.
  intros Hf. split; [now apply hcvsearch_is_hscsearch |].
  rewrite hsccone_run, hcvcone_run. now apply hcvsearch_is_hscsearch.
Qed.

(** X15: a cone search never fails for want of parameters, and every
    request it sends with parameters carries ra, dec and radius with the
    values of the call. *)
Theorem cone_search_carries_position (ra dec radius : pyval)
    (table release format magtype : string) (columns : option (list string))
    (baseurl : string) (verbose : bool) (kw : dict) (s : State) :
  let positioned (r : raises (result W) * State) :=
    fst r <> inl MissingParameters
    /\ exists sent_now,
         log (snd r) = (log s ++ sent_now)%list
         /\ forall rq params,
              In rq sent_now -> req_params rq = Some params ->
              dict_get "ra" params = Some ra
              /\ dict_get "dec" params = Some dec
              /\ dict_get "radius" params = Some radius in
  positioned (hsccone W ra dec radius table release format magtype columns
                baseurl verbose kw s)
  /\ positioned (hcvcone W ra dec radius table release format magtype columns
                   baseurl verbose kw s).
Proof.
  cbv zeta. rewrite hsccone_run, hcvcone_run, hscsearch_run, hcvsearch_run.
  set (data := cone_filters ra dec radius kw).
  set (s1 := mkState (heap s ++ [kw; data])%list (log s)).
  assert (Hdata : dict_get "ra" data = Some ra
                  /\ dict_get "dec" data = Some dec
                  /\ dict_get "radius" data = Some radius).
  { unfold data, cone_filters. split; [| split].
    - rewrite !dict_get_set_ne by discriminate. apply dict_get_set_eq.
    - rewrite dict_get_set_ne by discriminate. apply dict_get_set_eq.
    - apply dict_get_set_eq. }
  assert (Hne : data <> []).
  { apply truthy_true. apply dict_set_truthy. }
  assert (gen : forall formats rformat decode,
    (forall f r e, decode f r = inl e -> other_error e) ->
    let r := search_run W formats rformat decode table release magtype format
               columns baseurl data s1 in
    fst r <> inl MissingParameters
    /\ exists sent_now,
         log (snd r) = (log s ++ sent_now)%list
         /\ forall rq params,
              In rq sent_now -> req_params rq = Some params ->
              dict_get "ra" params = Some ra
              /\ dict_get "dec" params = Some dec
              /\ dict_get "radius" params = Some radius).
  { intros formats rformat decode Hd. cbv zeta. split.
    - intros H.
      destruct (search_run_value_error W formats rformat decode Hd _ _ _ _ _
                  _ _ _ _ H)
        as [[_ [[Hk _] | [(_ & _ & E) | (_ & _ & _ & E)]]]
           | (bad & _ & _ & _ & _ & E & _)].
      + contradiction.
      + discriminate.
      + now apply InvalidCombination_not_MissingParameters.
      + symmetry in E. now apply UnknownColumn_not_MissingParameters in E.
    - destruct (search_run_sent W formats rformat decode table release
                  magtype format columns baseurl data s1)
        as (sent_now & Hlog & _ & _ & Hrq).
      exists sent_now. split; [exact Hlog |].
      intros rq params Hin Hp.
      destruct (Hrq rq Hin) as [-> | [-> | ->]];
        [discriminate | |]; injection Hp as <-; [assumption |].
      rewrite !dict_get_set_ne by discriminate. assumption. }
  split; apply gen; [apply hsc_decode_error | apply hcv_decode_error].
Qed.

(** X16: without columns ([None] or the empty list) a search with filters,
    a supported format and a legal combination sends one request, the GET
    of the search URL with the filters as they are, and never asks for the
    metadata; a status in 400..599 raises [HTTPError] with that status, and
    otherwise csv and votable return the text of the answer unchanged. *)
Theorem search_without_columns (table release magtype format : string)
    (columns : option (list string)) (baseurl : string) (verbose : bool)
    (kw : dict) (s : State) :
  columns = None \/ columns = Some [] ->
  kw <> [] -> In format ["csv"; "votable"; "json"] ->
  legal release table magtype ->
  let rq := GET (base_path baseurl release table magtype ++ "." ++ format)
                (Some kw) in
  let answer := server W (log s) rq in
  let hsc := hscsearch W table release magtype format columns baseurl verbose
               kw s in
  let hcv := hcvsearch W table release magtype format columns baseurl verbose
               kw s in
  hcv = hsc
  /\ log (snd hsc) = (log s ++ [rq])%list
  /\ ((400 <= status_code answer < 600)%Z ->
      fst hsc = inl (HTTPError (status_code answer)))
  /\ (~ (400 <= status_code answer < 600)%Z -> format <> "json" ->
      fst hsc = inr (ResText W (text answer))).
Proof.
  intros Hc Hkw Hf Hl. cbv zeta.
  assert (Ht : format <> "table").
  { intros ->. simpl in Hf. intuition discriminate. }
  assert (Hf4 : In format hsc_formats).
  { unfold hsc_formats. simpl in *. tauto. }
  assert (Hcg : columns_given columns = []) by (destruct Hc as [-> | ->]; reflexivity).
  split.
  { now apply hcvsearch_is_hscsearch. }
  rewrite hscsearch_run, search_run_checked by assumption.
  cbv zeta. rewrite Hcg. cbn [truthy]. unfold fetch_run, hsc_rformat, hsc_decode.
  destruct (String.eqb_spec format "table"); [contradiction |].
  cbn [fst snd log]. rewrite !app_nil_r.
  split; [reflexivity |]. split.
  - intros Hst. apply http_failed_status in Hst. now rewrite Hst.
  - intros Hst Hj.
    destruct (http_failed _) eqn:E;
      [apply http_failed_status in E; contradiction |].
    destruct (String.eqb_spec format "json"); [contradiction | reflexivity].
Qed.

End SearchExtras.

(** ** Trimming *)

Lemma lstrip_chars_suffix (l : list ascii) :
  exists pre, l = (pre ++ lstrip_chars l)%list.
Proof.
  induction l as [| c l [pre IH]]; simpl.
  - exists []. reflexivity.
  - destruct (isspace c).
    + exists (c :: pre). simpl. now rewrite <- IH.
    + exists []. reflexivity.
Qed.

Lemma lstrip_chars_head (l : list ascii) (c : ascii) (t : list ascii) :
  lstrip_chars l = c :: t -> isspace c = false.
Proof.
  induction l as [| x l IH]; simpl; [discriminate |].
  destruct (isspace x) eqn:E; [assumption |]. intros [= <- _]. assumption.
Qed.

Lemma lstrip_chars_fixed (l : list ascii) :
  (forall c t, l = c :: t -> isspace c = false) -> lstrip_chars l = l.
Proof.
  destruct l as [| c t]; [reflexivity |]. intros H. simpl.
  now rewrite (H c t eq_refl).
Qed.

Lemma lstrip_chars_idempotent (l : list ascii) :
  lstrip_chars (lstrip_chars l) = lstrip_chars l.
Proof.
  apply lstrip_chars_fixed. intros c t H. now apply lstrip_chars_head in H.
Qed.

Lemma lstrip_chars_length (l : list ascii) :
  length (lstrip_chars l) <= length l
  /\ (length (lstrip_chars l) = length l -> lstrip_chars l = l).
Proof.
  destruct (lstrip_chars_suffix l) as [pre E].
  assert (H : length l = length pre + length (lstrip_chars l))
    by (rewrite E at 1; apply length_app).
  split; [lia |]. intros Hl.
  destruct pre; [exact (eq_sym E) | simpl in H; lia].
Qed.

(** The characters of a trimmed string. *)
Lemma strip_chars (s : string) :
  list_ascii_of_string (strip s)
  = rev (lstrip_chars (rev (lstrip_chars (list_ascii_of_string s)))).
Proof.
  unfold strip, rstrip, lstrip.
  now rewrite !list_ascii_of_string_of_list_ascii.
Qed.

Lemma string_of_chars_inj (s t : string) :
  list_ascii_of_string s = list_ascii_of_string t -> s = t.
Proof.
  intros H. rewrite <- (string_of_list_ascii_of_string s),
    <- (string_of_list_ascii_of_string t). now rewrite H.
Qed.

Lemma rstrip_keeps_head (m : list ascii) (c : ascii) (t : list ascii) :
  rev (lstrip_chars (rev m)) = c :: t -> exists t', m = c :: t'.
Proof.
  intros H. destruct (lstrip_chars_suffix (rev m)) as [pre E].
  apply (f_equal (@rev ascii)) in E. rewrite rev_involutive, rev_app_distr in E.
  rewrite H in E. simpl in E. eauto.
Qed.

(** Trimming twice is trimming once. *)
Lemma strip_idempotent (s : string) : strip (strip s) = strip s.
Proof.
  apply string_of_chars_inj. rewrite (strip_chars (strip s)), strip_chars.
  set (m := lstrip_chars (list_ascii_of_string s)).
  assert (Hhead : lstrip_chars (rev (lstrip_chars (rev m)))
                  = rev (lstrip_chars (rev m))).
  { apply lstrip_chars_fixed. intros c t H.
    apply rstrip_keeps_head in H. destruct H as [t' H].
    now apply (lstrip_chars_head (list_ascii_of_string s) c t'). }
  rewrite Hhead, rev_involutive. now rewrite lstrip_chars_idempotent.
Qed.

Lemma string_length_chars (s : string) :
  String.length s = length (list_ascii_of_string s).
Proof. induction s; simpl; congruence. Qed.

Lemma lower_length (s : string) : String.length (lower s) = String.length s.
Proof. induction s; simpl; congruence. Qed.

(** Trimming shortens a string unless it leaves it as it is. *)
Lemma strip_length (s : string) :
  String.length (strip s) = String.length s -> strip s = s.
Proof.
  rewrite !string_length_chars, strip_chars. intros H.
  apply string_of_chars_inj. rewrite strip_chars.
  set (l := list_ascii_of_string s) in *.
  destruct (lstrip_chars_length l) as [H1 H1'].
  destruct (lstrip_chars_length (rev (lstrip_chars l))) as [H2 H2'].
  rewrite !length_rev in H, H2, H2'.
  assert (E1 : lstrip_chars l = l) by (apply H1'; lia).
  rewrite E1 in *. rewrite H2' by lia. apply rev_involutive.
Qed.

(** A name that matches a requested column carries no surrounding
    whitespace. *)
Lemma known_name_trimmed (n col : string) :
  lower n = lower (strip col) -> strip n = n.
Proof.
  intros H. apply strip_length.
  rewrite <- (lower_length (strip n)), <- strip_lower, H, strip_lower,
    strip_idempotent, <- H.
  apply lower_length.
Qed.

(** ** Splitting and joining *)

Lemma split_not_nil (sep : ascii) (s : string) : split sep s <> [].
Proof.
  destruct s as [| c s]; simpl; [discriminate |].
  destruct (Ascii.eqb c sep); [discriminate |].
  destruct (split sep s); discriminate.
Qed.

(** Joining the pieces with the separator gives the text back. *)
Lemma join_split (sep : ascii) (s : string) :
  join (String sep EmptyString) (split sep s) = s.
Proof.
  induction s as [| c s IH]; simpl; [reflexivity |].
  destruct (Ascii.eqb_spec c sep) as [-> | Hc].
  - pose proof (split_not_nil sep s) as Hn.
    destruct (split sep s) as [| w ws]; [contradiction |].
    simpl in *. now rewrite IH.
  - pose proof (split_not_nil sep s) as Hn.
    destruct (split sep s) as [| w ws]; [contradiction |].
    destruct ws as [| w' ws]; simpl in *; now rewrite <- IH.
Qed.

Lemma split_no_sep (sep : ascii) (s x : string) :
  In x (split sep s) -> ~ In sep (list_ascii_of_string x).
Proof.
  revert x. induction s as [| c s IH]; simpl; intros x.
  - intros [<- | []]. simpl. tauto.
  - destruct (Ascii.eqb_spec c sep) as [-> | Hc].
    + intros [<- | H]; [simpl; tauto | now apply IH].
    + pose proof (split_not_nil sep s) as Hn.
      destruct (split sep s) as [| w ws]; [contradiction |].
      intros [<- | H].
      * simpl. intros [E | E]; [congruence |].
        now apply (IH w (or_introl eq_refl)).
      * apply IH. now right.
Qed.

Lemma lstrip_chars_incl (l : list ascii) (c : ascii) :
  In c (lstrip_chars l) -> In c l.
Proof.
  destruct (lstrip_chars_suffix l) as [pre E]. intros H.
  rewrite E. apply in_or_app. now right.
Qed.

Lemma strip_incl (s : string) (c : ascii) :
  In c (list_ascii_of_string (strip s)) -> In c (list_ascii_of_string s).
Proof.
  rewrite strip_chars. intros H. apply in_rev in H.
  apply lstrip_chars_incl in H. apply in_rev in H.
  now apply lstrip_chars_incl in H.
Qed.

(** ** Column names with surrounding whitespace *)

Section Padded.

Context (W : World).

(** X18: the metadata names are lower-cased but not trimmed, while the
    requested columns are both: in a metadata table of plain strings, a
    name that carries surrounding whitespace, and that no other name
    equals once trimmed and lower-cased, cannot be requested; asking for
    it as it is written is reported as an unknown column. *)
Theorem padded_name_cannot_be_requested (table release magtype format : string)
    (baseurl : string) (verbose : bool) (kw : dict) (s : State)
    (tab : list meta_row) (names : list string) (n : string) :
  kw <> [] -> In format ["csv"; "votable"; "json"; "table"] ->
  legal release table magtype ->
  fst (hscmetadata W table release magtype Defaults.baseurl s) = inr tab ->
  text_table tab -> has_names tab names ->
  In n names -> strip n <> n ->
  (forall n', In n' names -> lower (strip n') = lower (strip n) -> n' = n) ->
  fst (hscsearch W table release magtype format (Some [n]) baseurl verbose
         kw s)
  = inl (ValueError ("Some columns not found in table: " ++ n)).
Proof.
  intros Hkw Hf Hl Hm _ Hn Hin Hpad Huniq.
  rewrite (hscsearch_columns W table release magtype format [n] baseurl
             verbose kw s tab names) by (assumption || discriminate).
  assert (Hu : ~ column_known names n).
  { intros (n' & Hin' & E).
    pose proof (known_name_trimmed n' n E) as Ht.
    apply Hpad. rewrite <- (Huniq n' Hin'); [assumption |].
    now rewrite Ht. }
  assert (E : not_found (map lower names) [n] = [n]).
  { unfold not_found. cbn [List.filter].
    destruct (str_in (strip (lower n)) (map lower names)) eqn:F;
      [now apply found_known in F | reflexivity]. }
  rewrite E. reflexivity.
Qed.

End Padded.

(** ** The column list of the notebook *)

Lemma startswith_hash (x : string) :
  startswith x "#" = false <-> (forall rest, x <> String "#" rest).
Proof.
  unfold startswith. destruct x as [| c x].
  - split; [discriminate | reflexivity].
  - change (String.prefix "#" (String c x))
      with (if ascii_dec "#"%char c then String.prefix "" x else false).
    destruct (ascii_dec "#"%char c) as [<- | Hc].
    + assert (E : String.prefix "" x = true) by now destruct x.
      rewrite E. split; [discriminate |]. intros H. now destruct (H x).
    + split; [| reflexivity]. intros _ rest [= E _]. congruence.
Qed.

(** X19: every column that the notebook's cleaning of a comma-separated
    text keeps is non-empty, is already trimmed, does not start with a hash
    sign and contains no comma. *)
Theorem clean_columns_clean (text x : string) :
  In x (clean_columns text) ->
  x <> "" /\ strip x = x
  /\ (forall rest, x <> String "#" rest)
  /\ ~ In ","%char (list_ascii_of_string x).
Proof.
  unfold clean_columns. cbv zeta. rewrite filter_In, in_map_iff.
  intros [(y & <- & Hy) Hx]. apply andb_true_iff in Hx.
  destruct Hx as [Hne Hh]. apply negb_true_iff in Hh.
  split; [| split; [| split]].
  - intros E. rewrite E in Hne. discriminate.
  - apply strip_idempotent.
  - now apply startswith_hash.
  - intros Hc. apply strip_incl in Hc. now apply split_no_sep in Hy.
Qed.

Lemma clean_columns_clean_witness :
  "MatchRA" <> "" /\ strip "MatchRA" = "MatchRA"
  /\ (forall rest, "MatchRA" <> String "#" rest)
  /\ ~ In ","%char (list_ascii_of_string "MatchRA").
Proof.
  apply (clean_columns_clean " MatchID , MatchRA,#MatchDec,," "MatchRA").
  vm_compute. auto.
Defined.

Section NotebookColumns.

Context (W : World).

(** X20: for a text of ASCII characters and a metadata table of plain
    strings, when the cleaning leaves the pieces of the text as they are,
    the columns entry that [hscsearch] sends is the text itself between
    brackets: what the notebook writes is what the service receives. *)
Theorem notebook_columns_round_trip (table release magtype format text : string)
    (baseurl : string) (verbose : bool) (kw : dict) (s : State)
    (tab : list meta_row) (names : list string) :
  kw <> [] -> In format ["csv"; "votable"; "json"; "table"] ->
  legal release table magtype ->
  is_ascii text = true ->
  fst (hscmetadata W table release magtype Defaults.baseurl s) = inr tab ->
  text_table tab -> has_names tab names ->
  clean_columns text = split "," text ->
  (forall col, In col (clean_columns text) -> column_known names col) ->
  exists before params,
    log (snd (hscsearch W table release magtype format
                (Some (clean_columns text)) baseurl verbose kw s))
    = (before ++ [GET (base_path baseurl release table magtype ++ "."
                       ++ (if String.eqb format "table" then "csv"
                           else format))
                      (Some params)])%list
    /\ dict_get "columns" params = Some (PyStr ("[" ++ text ++ "]")).
Proof.
  intros Hkw Hf Hl _ Hm _ Hn Hclean Hall.
  assert (Hne : clean_columns text <> [])
    by (rewrite Hclean; apply split_not_nil).
  rewrite (hscsearch_columns W table release magtype format
             (clean_columns text) baseurl verbose kw s tab names)
    by assumption.
  apply not_found_nil in Hall. rewrite Hall. cbn [truthy].
  unfold fetch_run. cbn [snd log].
  exists (log s ++ [metadata_request table release magtype])%list.
  eexists. split.
  - rewrite <- app_assoc. reflexivity.
  - rewrite dict_get_set_eq. unfold columns_param.
    rewrite Hclean. now rewrite (join_split ","%char text).
Qed.

End NotebookColumns.

(** ** Asking for the credentials *)

Module CredentialsFacts.

Import Credentials.

Lemma env_get_set_eq (k v : string) (e : environment) :
  env_get k (env_set k v e) = Some v.
Proof.
  induction e as [| [k' v'] e IH]; simpl.
  - now rewrite String.eqb_refl.
  - destruct (String.eqb k' k) eqn:E; simpl; now rewrite E.
Qed.

Lemma env_get_set_ne (k k' v : string) (e : environment) :
  k <> k' -> env_get k' (env_set k v e) = env_get k' e.
Proof.
  intros Hne. induction e as [| [k0 v0] e IH]; simpl.
  - destruct (String.eqb_spec k k'); [contradiction | reflexivity].
  - destruct (String.eqb_spec k0 k) as [-> | Hk]; simpl.
    + destruct (String.eqb_spec k k'); [contradiction | reflexivity].
    + now rewrite IH.
Qed.

Lemma is_set_value (o : option string) :
  is_set o = true <-> exists v, o = Some v /\ v <> "".
Proof.
  destruct o as [[| c v] |]; simpl; split; try discriminate.
  - intros (v & [= <-] & H). now destruct H.
  - intros _. eexists. split; [reflexivity | discriminate].
  - reflexivity.
  - intros (v & H & _). discriminate.
Qed.

(** How the cell runs, by what is missing and what is typed. *)
Lemma ask_credentials_run (c : Console) :
  ask_credentials c
  = match missing c, typed c with
    | [], _ => (Some tt, c)
    | [k], [] =>
        (None, mkConsole (environ c) [] (prompts c ++ [prompt_for k]))
    | [k], line :: rest =>
        (Some tt, mkConsole (env_set k line (environ c)) rest
                    (prompts c ++ [prompt_for k]))
    | k1 :: k2 :: _, [] =>
        (None, mkConsole (environ c) [] (prompts c ++ [prompt_for k1]))
    | k1 :: k2 :: _, [line] =>
        (None, mkConsole (env_set k1 line (environ c)) []
                 (prompts c ++ [prompt_for k1; prompt_for k2]))
    | k1 :: k2 :: _, line1 :: line2 :: rest =>
        (Some tt,
         mkConsole (env_set k2 line2 (env_set k1 line1 (environ c))) rest
           (prompts c ++ [prompt_for k1; prompt_for k2]))
    end.
Proof.
  destruct c as [env lines shown].
  unfold ask_credentials, missing, mbind, IO_bind, environ_get, input,
    getpass, environ_setitem, mret, IO_ret. cbn [environ typed prompts].
  destruct (is_set (env_get "CASJOBS_USERID" env)) eqn:Eu;
    cbn [negb app environ typed prompts].
  - destruct (is_set (env_get "CASJOBS_PW" env)) eqn:Ep; cbn [negb app].
    + reflexivity.
    + destruct lines as [| line rest]; reflexivity.
  - destruct lines as [| line1 rest]; cbn [List.tl environ typed prompts].
    + destruct (is_set (env_get "CASJOBS_PW" env)); reflexivity.
    + rewrite env_get_set_ne by discriminate.
      destruct (is_set (env_get "CASJOBS_PW" env)) eqn:Ep; cbn [negb app].
      * reflexivity.
      * destruct rest as [| line2 rest]; unfold input;
          cbn [List.tl environ typed prompts];
          rewrite <- app_assoc; reflexivity.
Qed.

Lemma missing_cases (c : Console) :
  missing c = [] \/ missing c = ["CASJOBS_USERID"]
  \/ missing c = ["CASJOBS_PW"]
  \/ missing c = ["CASJOBS_USERID"; "CASJOBS_PW"].
Proof.
  unfold missing.
  destruct (is_set (env_get "CASJOBS_USERID" (environ c)));
    destruct (is_set (env_get "CASJOBS_PW" (environ c))); cbn; auto.
Qed.

(** X21: the cell never replaces a credential that is set to a non-empty
    value, nor touches any other variable, whether it succeeds or not; and
    when both credentials are set it shows no prompt, reads nothing and
    changes nothing. *)
Theorem set_credentials_are_kept (c : Console) :
  (forall k v,
     env_get k (environ c) = Some v ->
     v <> "" \/ (k <> "CASJOBS_USERID" /\ k <> "CASJOBS_PW") ->
     env_get k (environ (snd (ask_credentials c))) = Some v)
  /\ (is_set (env_get "CASJOBS_USERID" (environ c)) = true ->
      is_set (env_get "CASJOBS_PW" (environ c)) = true ->
      ask_credentials c = (Some tt, c)).
Proof.
  split.
  - intros k v Hk Hv.
    assert (Hnot : forall k', In k' (missing c) -> k' <> k).
    { intros k' Hin ->. unfold missing in Hin. apply in_app_or in Hin.
      destruct Hv as [Hv | [Hu Hp]].
      - assert (Hs : is_set (env_get k (environ c)) = true)
          by (apply is_set_value; eauto).
        destruct Hin as [Hin | Hin];
          [destruct (is_set (env_get "CASJOBS_USERID" (environ c))) eqn:E
          |destruct (is_set (env_get "CASJOBS_PW" (environ c))) eqn:E];
          try destruct Hin as [<- | []]; try destruct Hin; congruence.
      - destruct Hin as [Hin | Hin];
          [destruct (is_set (env_get "CASJOBS_USERID" (environ c)))
          |destruct (is_set (env_get "CASJOBS_PW" (environ c)))];
          try destruct Hin as [<- | []]; try destruct Hin; congruence. }
    rewrite ask_credentials_run.
    destruct (missing c) as [| k1 [| k2 ks]];
      destruct (typed c) as [| l1 [| l2 ls]]; cbn [snd environ];
      try assumption;
      rewrite ?env_get_set_ne; try assumption;
      apply Hnot; simpl; auto.
  - intros Hu Hp. rewrite ask_credentials_run. unfold missing.
    now rewrite Hu, Hp.
Qed.

(** X22: when the user types at least as many lines as credentials are
    missing, and the lines can be stored in the environment (ASCII text
    without the character zero), the cell succeeds: it shows one prompt
    per missing credential, the user id before the password, reads one
    line for each and stores it, so that afterwards both credentials are
    defined. *)
Theorem credentials_asked_in_order (c : Console) :
  forallb storable (typed c) = true ->
  length (missing c) <= length (typed c) ->
  let c' := snd (ask_credentials c) in
  fst (ask_credentials c) = Some tt
  /\ prompts c' = (prompts c ++ map prompt_for (missing c))%list
  /\ typed c' = drop (length (missing c)) (typed c)
  /\ (forall i k,
        missing c !! i = Some k ->
        env_get k (environ c') = typed c !! i)
  /\ is_Some (env_get "CASJOBS_USERID" (environ c'))
  /\ is_Some (env_get "CASJOBS_PW" (environ c')).
Proof.
  intros _ Hlen. cbv zeta. rewrite ask_credentials_run.
  assert (Hset : forall k, is_set (env_get k (environ c)) = true ->
                           is_Some (env_get k (environ c))).
  { intros k H. apply is_set_value in H. destruct H as (v & -> & _). eauto. }
  unfold missing in *.
  destruct (is_set (env_get "CASJOBS_USERID" (environ c))) eqn:Eu;
    destruct (is_set (env_get "CASJOBS_PW" (environ c))) eqn:Ep;
    cbn [app length] in *.
  - cbn [fst snd map drop]. rewrite app_nil_r.
    split; [reflexivity |]. split; [reflexivity |]. split; [reflexivity |].
    split; [intros i k H; destruct i; cbn in H; discriminate |]. auto.
  - destruct (typed c) as [| l1 ls]; [cbn in Hlen; lia |].
    cbn [fst snd map drop environ typed prompts].
    split; [reflexivity |]. split; [reflexivity |]. split; [reflexivity |].
    split.
    + intros [| i] k H; [| destruct i; cbn in H; discriminate].
      cbn in H. injection H as <-. cbn. apply env_get_set_eq.
    + split; [rewrite env_get_set_ne by discriminate; auto |].
      rewrite env_get_set_eq. eauto.
  - destruct (typed c) as [| l1 ls]; [cbn in Hlen; lia |].
    cbn [fst snd map drop environ typed prompts].
    split; [reflexivity |]. split; [reflexivity |]. split; [reflexivity |].
    split.
    + intros [| i] k H; [| destruct i; cbn in H; discriminate].
      cbn in H. injection H as <-. cbn. apply env_get_set_eq.
    + split; [rewrite env_get_set_eq; eauto |].
      rewrite env_get_set_ne by discriminate. auto.
  - destruct (typed c) as [| l1 [| l2 ls]]; try (cbn in Hlen; lia).
    cbn [fst snd map drop environ typed prompts].
    split; [reflexivity |]. split; [reflexivity |]. split; [reflexivity |].
    split.
    + intros [| [| i]] k H; try (destruct i; cbn in H; discriminate);
        cbn in H; injection H as <-; cbn.
      * rewrite env_get_set_ne by discriminate. apply env_get_set_eq.
      * apply env_get_set_eq.
    + split; [| rewrite env_get_set_eq; eauto].
      rewrite env_get_set_ne by discriminate. rewrite env_get_set_eq. eauto.
Qed.

(** X23: when fewer lines can be read than credentials are missing, and
    the lines can be stored in the environment (ASCII text without the
    character zero), the cell fails on the closed input, after one prompt
    more than lines were read; a user id that was typed before the failure
    stays in the environment. *)
Theorem credentials_on_closed_input (c : Console) :
  forallb storable (typed c) = true ->
  length (typed c) < length (missing c) ->
  let c' := snd (ask_credentials c) in
  fst (ask_credentials c) = None
  /\ typed c' = []
  /\ prompts c'
     = (prompts c ++ map prompt_for (take (S (length (typed c))) (missing c)))%list
  /\ (forall i k,
        i < length (typed c) -> missing c !! i = Some k ->
        env_get k (environ c') = typed c !! i).
Proof.
  intros _ Hlen. cbv zeta. rewrite ask_credentials_run.
  destruct (missing c) as [| k1 [| k2 ks]] eqn:Em;
    [cbn in Hlen; lia | |].
  - destruct (typed c) as [| l1 ls]; [| cbn in Hlen; lia].
    cbn. repeat split. intros i k Hi. lia.
  - assert (ks = []) as ->.
    { destruct (missing_cases c) as [E | [E | [E | E]]]; congruence. }
    destruct (typed c) as [| l1 [| l2 ls]]; [| | cbn in Hlen; lia].
    + cbn. repeat split. intros i k Hi. lia.
    + cbn [fst snd typed prompts environ length take map].
      split; [reflexivity |]. split; [reflexivity |]. split; [reflexivity |].
      intros [| i] k Hi H; [| cbn in Hi; lia].
      cbn in H. injection H as <-. cbn. apply env_get_set_eq.
Qed.

End CredentialsFacts.

(** * The further properties on concrete calls *)

Lemma metadata_http_error_witness :
  fst (hscmetadata Cases.down "summary" "v3" "magaper2" hscapiurl Demo.empty)
  = inl (HTTPError 503).
Proof.
  apply (proj2 (metadata_http_error Cases.down "summary" "v3" "magaper2"
                  hscapiurl Demo.empty 503 demo_legal)).
  split; [reflexivity | lia].
Defined.

Lemma metadata_rows_witness :
  fst (hscmetadata Demo.world "summary" "v3" "magaper2" hscapiurl Demo.empty)
  = inr Demo.rows.
Proof.
  apply (proj2 (metadata_rows Demo.world "summary" "v3" "magaper2" hscapiurl
                  Demo.empty
                  [Demo.column "MatchID" "long" "identifier for the match";
                   Demo.column "MatchRA" "float" "right ascension";
                   Demo.column "MatchDec" "float" "declination"]
                  Demo.rows demo_legal
                  ltac:(change (~ (400 <= 200 < 600)%Z); lia)
                  ltac:(reflexivity) ltac:(discriminate)
                  ltac:(reflexivity))).
  repeat constructor; eexists; repeat split; reflexivity.
Defined.

Lemma metadata_bad_descriptor_witness :
  fst (hscmetadata Cases.incomplete "summary" "v3" "magaper2" hscapiurl
         Demo.empty)
  = inl (KeyError "type").
Proof.
  refine (proj1 (proj2 (proj2
            (metadata_bad_descriptor Cases.incomplete "summary" "v3"
               "magaper2" hscapiurl Demo.empty
               [Demo.column "MatchID" "long" "identifier for the match"]
               (JObj [("name", JStr "MatchRA");
                      ("description", JStr "right ascension")])
               [JStr "MatchDec"] demo_legal
               ltac:(change (~ (400 <= 200 < 600)%Z); lia)
               ltac:(reflexivity) _)
            [("name", JStr "MatchRA");
             ("description", JStr "right ascension")] eq_refl))
          ltac:(discriminate) ltac:(reflexivity)).
  intros g [<- | []].
  exists (MetaRow (JStr "MatchID") (JStr "long")
            (JStr "identifier for the match")).
  eexists. repeat split; reflexivity.
Defined.

Lemma metadata_not_an_array_witness :
  fst (hscmetadata Cases.garbled "summary" "v3" "magaper2" hscapiurl
         Demo.empty) = inl JSONDecodeError
  /\ fst (hscmetadata Cases.scalar "summary" "v3" "magaper2" hscapiurl
            Demo.empty) = inl TypeError.
Proof.
  split.
  - apply (proj1 (metadata_not_an_array Cases.garbled "summary" "v3"
                    "magaper2" hscapiurl Demo.empty demo_legal
                    ltac:(change (~ (400 <= 200 < 600)%Z); lia))).
    reflexivity.
  - apply (proj2 (metadata_not_an_array Cases.scalar "summary" "v3"
                    "magaper2" hscapiurl Demo.empty demo_legal
                    ltac:(change (~ (400 <= 200 < 600)%Z); lia))
             (JNum 3)).
    + reflexivity.
    + right; right. now exists 3%Q.
Defined.

Lemma validation_uses_default_api_witness :
  exists rest,
    log (snd (hscsearch Demo.world "summary" "v3" "magaper2" "csv"
                (Some ["MatchID"]) "https://example.org/mirror" false
                Demo.filters Demo.empty))
    = (log Demo.empty
       ++ GET (base_path hscapiurl "v3" "summary" "magaper2" ++ "/metadata")
              None
          :: rest)%list.
Proof.
  apply (proj1 (validation_uses_default_api Demo.world "summary" "v3"
                  "magaper2" "csv" ["MatchID"] "https://example.org/mirror"
                  false Demo.filters Demo.empty
                  ltac:(discriminate) demo_legal ltac:(discriminate))).
  simpl. auto.
Defined.

Lemma hscsearch_returns_witness :
  Demo.filters <> [] /\ In "votable" ["csv"; "votable"; "json"; "table"]
  /\ legal "v3" "summary" "magaper2"
  /\ exists before params,
       let rq := GET (base_path hscapiurl "v3" "summary" "magaper2" ++ "."
                      ++ (if String.eqb "votable" "table" then "csv"
                          else "votable"))
                     (Some params) in
       let answer := server Demo.world before rq in
       log (snd (hscsearch Demo.world "summary" "v3" "magaper2" "votable" None
                   hscapiurl false Demo.filters Demo.empty))
       = (before ++ [rq])%list
       /\ ~ (400 <= status_code answer < 600)%Z
       /\ ("votable" = "json" ->
           exists j, json_loads Demo.world (text answer) = Some j
                     /\ ResText Demo.world Demo.csv_text
                        = ResJson Demo.world j)
       /\ ("votable" = "table" ->
           exists t, read_csv Demo.world (text answer) = Some t
                     /\ ResText Demo.world Demo.csv_text
                        = ResTable Demo.world t)
       /\ ("votable" <> "json" -> "votable" <> "table" ->
           ResText Demo.world Demo.csv_text
           = ResText Demo.world (text answer)).
Proof.
  apply (hscsearch_returns Demo.world "summary" "v3" "magaper2" "votable" None
           hscapiurl false Demo.filters Demo.empty
           (ResText Demo.world Demo.csv_text)).
  reflexivity.
Defined.

Lemma http_error_is_last_answer_witness :
  (400 <= 404 < 600)%Z
  /\ exists before rq,
       log (snd (hscsearch Cases.not_found_search "summary" "v3" "magaper2"
                   "csv" (Some ["MatchID"]) hscapiurl false Demo.filters
                   Demo.empty))
       = (before ++ [rq])%list
       /\ 404%Z = status_code (server Cases.not_found_search before rq).
Proof.
  apply (proj1 (http_error_is_last_answer Cases.not_found_search "summary"
                  "v3" "magaper2" "csv" (Some ["MatchID"]) hscapiurl false
                  Demo.filters Demo.empty 404)).
  reflexivity.
Defined.

Lemma hcv_is_hsc_but_for_table_witness :
  hcvsearch Demo.world "hcvsummary" "v3" "magaper2" "json" None hscapiurl
    false Demo.filters Demo.empty
  = hscsearch Demo.world "hcvsummary" "v3" "magaper2" "json" None hscapiurl
      false Demo.filters Demo.empty
  /\ hcvcone Demo.world (PyFloat 187.706) (PyFloat 12.391) (PyInt 1)
       "hcvsummary" "v3" "json" "magaper2" None hscapiurl false Demo.filters
       Demo.empty
     = hsccone Demo.world (PyFloat 187.706) (PyFloat 12.391) (PyInt 1)
         "hcvsummary" "v3" "json" "magaper2" None hscapiurl false Demo.filters
         Demo.empty.
Proof.
  apply (hcv_is_hsc_but_for_table Demo.world (PyFloat 187.706)
           (PyFloat 12.391) (PyInt 1) "hcvsummary" "v3" "magaper2" "json"
           None hscapiurl false Demo.filters Demo.empty).
  discriminate.
Defined.

Lemma search_without_columns_witness :
  let rq := GET (base_path hscapiurl "v3" "summary" "magaper2" ++ "." ++ "csv")
                (Some Demo.filters) in
  let answer := server Demo.world (log Demo.empty) rq in
  let hsc := hscsearch Demo.world "summary" "v3" "magaper2" "csv" (Some [])
               hscapiurl false Demo.filters Demo.empty in
  let hcv := hcvsearch Demo.world "summary" "v3" "magaper2" "csv" (Some [])
               hscapiurl false Demo.filters Demo.empty in
  hcv = hsc
  /\ log (snd hsc) = (log Demo.empty ++ [rq])%list
  /\ ((400 <= status_code answer < 600)%Z ->
      fst hsc = inl (HTTPError (status_code answer)))
  /\ (~ (400 <= status_code answer < 600)%Z -> "csv" <> "json" ->
      fst hsc = inr (ResText Demo.world (text answer))).
Proof.
  apply (search_without_columns Demo.world "summary" "v3" "magaper2" "csv"
           (Some []) hscapiurl false Demo.filters Demo.empty
           (or_intror eq_refl) ltac:(discriminate) ltac:(simpl; auto)
           demo_legal).
Defined.

Lemma padded_name_cannot_be_requested_witness :
  fst (hscsearch Cases.padded "summary" "v3" "magaper2" "csv"
         (Some [" MatchID"]) hscapiurl false Demo.filters Demo.empty)
  = inl (ValueError ("Some columns not found in table: " ++ " MatchID")).
Proof.
  apply (padded_name_cannot_be_requested Cases.padded "summary" "v3"
           "magaper2" "csv" hscapiurl false Demo.filters Demo.empty
           Cases.padded_rows [" MatchID"; "MatchRA"] " MatchID"
           ltac:(discriminate) ltac:(simpl; auto) demo_legal
           ltac:(reflexivity) ltac:(reflexivity) ltac:(reflexivity)
           ltac:(simpl; auto) ltac:(discriminate)).
  intros n' [<- | [<- | []]]; [reflexivity | discriminate].
Defined.

Lemma notebook_columns_round_trip_witness :
  exists before params,
    log (snd (hscsearch Demo.world "summary" "v3" "magaper2" "table"
                (Some (clean_columns "MatchID,MatchRA,MatchDec")) hscapiurl
                false Demo.filters Demo.empty))
    = (before ++ [GET (base_path hscapiurl "v3" "summary" "magaper2" ++ "."
                       ++ (if String.eqb "table" "table" then "csv"
                           else "table"))
                      (Some params)])%list
    /\ dict_get "columns" params
       = Some (PyStr ("[" ++ "MatchID,MatchRA,MatchDec" ++ "]")).
Proof.
  apply (notebook_columns_round_trip Demo.world "summary" "v3" "magaper2"
           "table" "MatchID,MatchRA,MatchDec" hscapiurl false Demo.filters
           Demo.empty Demo.rows Demo.names
           ltac:(discriminate) ltac:(simpl; auto 6) demo_legal
           ltac:(reflexivity) ltac:(reflexivity) ltac:(reflexivity)
           ltac:(reflexivity) ltac:(reflexivity)).
  intros col [<- | [<- | [<- | []]]]; apply demo_known; reflexivity.
Defined.

Lemma set_credentials_are_kept_witness :
  Credentials.env_get "CASJOBS_PW"
    (Credentials.environ
       (snd (Credentials.ask_credentials
               (Credentials.mkConsole [("CASJOBS_PW", "secret")] ["me"] []))))
  = Some "secret"
  /\ Credentials.ask_credentials
       (Credentials.mkConsole
          [("CASJOBS_USERID", "me"); ("CASJOBS_PW", "secret")] ["typed"] [])
     = (Some tt,
        Credentials.mkConsole
          [("CASJOBS_USERID", "me"); ("CASJOBS_PW", "secret")] ["typed"] []).
Proof.
  split.
  - apply (proj1 (CredentialsFacts.set_credentials_are_kept
                    (Credentials.mkConsole [("CASJOBS_PW", "secret")] ["me"]
                       []))
             "CASJOBS_PW" "secret" eq_refl).
    left. discriminate.
  - apply (proj2 (CredentialsFacts.set_credentials_are_kept
                    (Credentials.mkConsole
                       [("CASJOBS_USERID", "me"); ("CASJOBS_PW", "secret")]
                       ["typed"] [])));
      reflexivity.
Defined.

Lemma credentials_asked_in_order_witness :
  let c := Credentials.mkConsole [("CASJOBS_PW", "")] ["me"; "secret"; "more"]
             [] in
  let c' := snd (Credentials.ask_credentials c) in
  fst (Credentials.ask_credentials c) = Some tt
  /\ Credentials.prompts c'
     = (Credentials.prompts c
        ++ map Credentials.prompt_for (Credentials.missing c))%list
  /\ Credentials.typed c'
     = drop (length (Credentials.missing c)) (Credentials.typed c)
  /\ (forall i k,
        Credentials.missing c !! i = Some k ->
        Credentials.env_get k (Credentials.environ c')
        = Credentials.typed c !! i)
  /\ is_Some (Credentials.env_get "CASJOBS_USERID" (Credentials.environ c'))
  /\ is_Some (Credentials.env_get "CASJOBS_PW" (Credentials.environ c')).
Proof.
  apply (CredentialsFacts.credentials_asked_in_order
           (Credentials.mkConsole [("CASJOBS_PW", "")]
              ["me"; "secret"; "more"] [])).
  - reflexivity.
  - vm_compute. lia.
Defined.

Lemma credentials_on_closed_input_witness :
  let c := Credentials.mkConsole [] ["me"] [] in
  let c' := snd (Credentials.ask_credentials c) in
  fst (Credentials.ask_credentials c) = None
  /\ Credentials.typed c' = []
  /\ Credentials.prompts c'
     = (Credentials.prompts c
        ++ map Credentials.prompt_for
             (take (S (length (Credentials.typed c)))
                (Credentials.missing c)))%list
  /\ (forall i k,
        i < length (Credentials.typed c) ->
        Credentials.missing c !! i = Some k ->
        Credentials.env_get k (Credentials.environ c')
        = Credentials.typed c !! i).
Proof.
  apply (CredentialsFacts.credentials_on_closed_input
           (Credentials.mkConsole [] ["me"] [])).
  - reflexivity.
  - vm_compute. lia.
Defined.

Lemma search_sends_at_most_two_witness :
  exists sent_now,
    log (snd (hscsearch Demo.world "summary" "v3" "magaper2" "csv"
                (Some ["MatchID"]) hscapiurl false Demo.filters Demo.empty))
    = (log Demo.empty ++ sent_now)%list
    /\ length sent_now <= 2.
Proof.
  destruct (proj1 (search_sends_at_most_two Demo.world "summary" "v3"
                     "magaper2" "csv" (Some ["MatchID"]) hscapiurl false
                     Demo.filters Demo.empty))
    as (sent_now & Hlog & Hlen & _).
  exists sent_now. split; assumption.
Defined.

Lemma cone_search_carries_position_witness :
  fst (hsccone Demo.world (PyFloat 187.706) (PyFloat 12.391) (PyInt 1)
         "summary" "v3" "csv" "magaper2" None hscapiurl false [] Demo.empty)
  <> inl MissingParameters.
Proof.
  exact (proj1 (proj1 (cone_search_carries_position Demo.world
                         (PyFloat 187.706) (PyFloat 12.391) (PyInt 1)
                         "summary" "v3" "csv" "magaper2" None hscapiurl false
                         [] Demo.empty))).
Defined.
